(** * CityTimelapse: the looping city time-lapse animation

    Shallow embedding of [src/app/components/CityTimelapse.tsx].

    JavaScript numbers are idealised as real numbers: [Math.sin], [Math.cos]
    and [Math.PI] are the functions [sin], [cos] and the constant [PI] of the
    standard library of reals, [Math.floor] is [Int_part], and [%] on numbers
    is the truncated remainder [js_rem].  Loop counters, which only ever hold
    integers, are in [Z] with [Z.rem] for [%].  [Math.random] is an oracle
    that is threaded through the footprint generator. *)

From Stdlib Require Import Reals Lra Lia ZArith List Bool.
Import ListNotations.

Open Scope R_scope.

(** ** Timeline helpers (lines 14-26) *)

Module Timeline.

Definition CYCLE_SECONDS : R := 22.

Definition easeInOut (t : R) : R :=
  if Rlt_dec t 0.5 then 2 * t * t else -1 + (4 - 2 * t) * t.

Definition clamp01 (x : R) : R := Rmin 1 (Rmax 0 x).

Definition remap (x inMin inMax : R) : R :=
  clamp01 ((x - inMin) / (inMax - inMin)).

(** [Math.trunc] on reals: rounding towards zero. *)
Definition Rtrunc (x : R) : Z :=
  if Rle_dec 0 x then Int_part x else (- Int_part (- x))%Z.

(** The [%] operator of JavaScript on numbers: the remainder has the sign of
    the dividend, [x % y = x - y * trunc (x / y)]. *)
Definition js_rem (x y : R) : R := x - y * IZR (Rtrunc (x / y)).

(** [const phase = (t % CYCLE_SECONDS) / CYCLE_SECONDS], as every frame
    callback computes it. *)
Definition phase (t : R) : R := js_rem t CYCLE_SECONDS / CYCLE_SECONDS.

End Timeline.

Import Timeline.

(** ** Scene objects *)

Module Scene.

(** The fields of a three.js material that the frame callbacks write. *)
Record Material : Type := mkMaterial {
  color : Z;
  opacity : R;
  transparent : bool;
  metalness : R;
  roughness : R
}.

(** A material as three.js constructs it: opaque, not transparent. *)
Definition newMaterial (c : Z) : Material :=
  mkMaterial c 1 false 0 1.

Definition Vector3 : Type := (R * R * R)%type.

Definition vx (v : Vector3) : R := fst (fst v).
Definition vy (v : Vector3) : R := snd (fst v).
Definition vz (v : Vector3) : R := snd v.

(** [Matrix4.compose (position, new Quaternion (), scale)]: a translation and
    a scale, the rotation being the identity. *)
Record Matrix4 : Type := compose {
  position : Vector3;
  scale : Vector3
}.

(** An axis-aligned rectangle on the ground plane: centre and extent along
    the x and the z axis. *)
Record Rect : Type := mkRect {
  centerX : R;
  centerZ : R;
  sizeX : R;
  sizeZ : R
}.

(** Two closed intervals, given by centre and width, meet. *)
Definition meets (c1 w1 c2 w2 : R) : Prop :=
  Rabs (c1 - c2) <= (w1 + w2) / 2.

Definition overlaps (a b : Rect) : Prop :=
  meets (centerX a) (sizeX a) (centerX b) (sizeX b) /\
  meets (centerZ a) (sizeZ a) (centerZ b) (sizeZ b).

(** [for (let i = lo; i <= hi; i += step)]: the values the counter takes,
    with [fuel] bounding the number of iterations. *)
Fixpoint for_loop (fuel : nat) (i hi step : Z) : list Z :=
  match fuel with
  | O => []
  | S fuel' =>
      if (i <=? hi)%Z then i :: for_loop fuel' (i + step)%Z hi step else []
  end.

End Scene.

Import Scene.

(** ** Ground (lines 28-59) *)

Module Ground.

(** The plane of 200 by 200, laid flat about the origin. *)
Definition plane : Rect := mkRect 0 0 200 200.

End Ground.

(** ** BlueprintOverlay (lines 61-87) *)

Module BlueprintOverlay.

Definition pulse (t : R) : R := 0.6 + 0.4 * sin (t * 2.2).

Definition appear (phase : R) : R := clamp01 (remap phase 0.2 0.4).

(** The [useFrame] callback, lines 77-84. *)
Definition frame (t : R) (mat : Material) : Material :=
  let phase := phase t in
  let pulse := pulse t in
  let appear := appear phase in
  mkMaterial (color mat) (appear * pulse) true (metalness mat) (roughness mat).

Definition mat0 : Material := newMaterial 0x4c86ff.

(** The vertices of [linesGeom], lines 63-74: for every [i] a segment along
    x at [z = i] and a segment along z at [x = i], two vertices each. *)
Definition gridLines : list Z := for_loop 1000 (-200) 200 4.

Definition points : list Vector3 :=
  flat_map (fun i =>
              [(-200, 0.01, IZR i); (200, 0.01, IZR i);
               (IZR i, 0.01, -200); (IZR i, 0.01, 200)])
           gridLines.

(** The opacity of the grid after the frame at elapsed time [t]. *)
Definition gridOpacity (t : R) : R := opacity (frame t mat0).

End BlueprintOverlay.

(** ** Buildings (lines 89-205) *)

Module Buildings.

(** *** Footprint generation, lines 94-112 *)

Record Layout : Type := mkLayout {
  calls : nat;                    (* calls of Math.random so far *)
  footprints : list (R * R);      (* positions *)
  heights : list R
}.

Definition coords : list Z := for_loop 100 (-40) 40 8.

Section Generate.

(** [random k] is what the [k]-th call of [Math.random ()] returns. *)
Variable random : nat -> R.

(** The body of the inner loop at the cell [(x, z)]. *)
Definition cell (acc : Layout) (xz : Z * Z) : Layout :=
  let '(x, z) := xz in
  (* leave space for roads every 16 units *)
  if ((Z.rem x 16 =? 0) || (Z.rem z 16 =? 0))%Z then acc
  else
    let k := calls acc in
    let jitterX := random k * 1.5 - 0.75 in
    let jitterZ := random (S k) * 1.5 - 0.75 in
    let h := 4 + IZR (Int_part (random (S (S k)) * 18)) in
    mkLayout (S (S (S k)))
             (footprints acc ++ [(IZR x + jitterX, IZR z + jitterZ)])
             (heights acc ++ [h]).

(** The two nested loops: [x] outside, [z] inside. *)
Definition generate : Layout :=
  fold_left cell (list_prod coords coords) (mkLayout 0 [] []).

End Generate.

(** *** Progress values of the frame callback, lines 122-132 *)

Definition construct (phase : R) : R := remap phase 0.4 0.7.
Definition finish (phase : R) : R := remap phase 0.7 1.0.

(** Foundations rise during early construction. *)
Definition foundationRise (phase : R) : R := easeInOut (construct phase).
(** Frames rise after foundations. *)
Definition frameRise (phase : R) : R :=
  easeInOut (clamp01 (construct phase * 1.1 - 0.15)).
(** Skins fade/scale in later. *)
Definition skinAppear (phase : R) : R := easeInOut (finish phase).

(** *** Instance matrices, lines 134-154 *)

Definition foundationMatrix (phase x z : R) : Matrix4 :=
  let foundationHeight := Rmax 0.2 (0.6 * foundationRise phase) in
  compose (x, foundationHeight / 2, z) (2.6, foundationHeight, 2.6).

Definition frameMatrix (phase height x z : R) : Matrix4 :=
  let frameH := height * frameRise phase in
  compose (x, frameH / 2, z) (0.15, Rmax 0.01 frameH, 0.15).

Definition skinMatrix (phase height x z : R) : Matrix4 :=
  let skinH := height * clamp01 (skinAppear phase) in
  compose (x, skinH / 2, z) (2.8, Rmax 0.01 skinH, 2.8).

(** The instanced meshes and their materials, as the callback leaves them. *)
Record Meshes : Type := mkMeshes {
  foundationInstances : list Matrix4;
  frameInstances : list Matrix4;
  skinInstances : list Matrix4;
  fdMat : Material;
  fMat : Material;
  sMat : Material
}.

(** [for (const [x, z] of footprints)] with the running index [i]. *)
Fixpoint instances (mk : R -> R -> R -> Matrix4) (hs : list R) (i : nat)
    (fps : list (R * R)) : list Matrix4 :=
  match fps with
  | [] => []
  | (x, z) :: rest => mk (nth i hs 0) x z :: instances mk hs (S i) rest
  end.

(** The [useFrame] callback, lines 118-183.  [mounted] tells whether the
    three refs are set; when one is not, the callback returns at once. *)
Definition frame (mounted : bool) (lay : Layout) (t : R) (ms : Meshes)
    : Meshes :=
  if negb mounted then ms
  else
    let phase := phase t in
    let foundationRise := foundationRise phase in
    let frameRise := frameRise phase in
    let skinAppear := skinAppear phase in
    mkMeshes
      (instances (fun _ => foundationMatrix phase) (heights lay) 0
                 (footprints lay))
      (instances (frameMatrix phase) (heights lay) 0 (footprints lay))
      (instances (skinMatrix phase) (heights lay) 0 (footprints lay))
      (mkMaterial 0x9aa3ab (0.9 * foundationRise * (1.0 - 0.2 * skinAppear))
                  true 0.0 0.95)
      (mkMaterial 0x96a5b8 (clamp01 (frameRise * (1.0 - 0.6 * skinAppear)))
                  true 0.6 0.5)
      (mkMaterial 0x9bb7d9 (clamp01 (0.15 + 0.85 * skinAppear))
                  true 0.2 0.65).

Definition meshes0 : Meshes :=
  mkMeshes [] [] [] (newMaterial 0xffffff) (newMaterial 0xffffff)
           (newMaterial 0xffffff).

(** The opacity of the skin material after a frame at elapsed time [t]. *)
Definition skinOpacity (lay : Layout) (t : R) : R :=
  opacity (sMat (frame true lay t meshes0)).

(** The ground rectangle a finished building covers: the unit box scaled by
    the skin matrix. *)
Definition skinRect (m : Matrix4) : Rect :=
  let '(x, _, z) := position m in
  let '(sx, _, sz) := scale m in
  mkRect x z sx sz.

End Buildings.

(** ** RoadsAndParks (lines 207-289) *)

Module RoadsAndParks.

Record Materials : Type := mkMaterials {
  matRoad : Material;
  matSidewalk : Material;
  matTreeTrunk : Material;
  matTreeLeaf : Material
}.

Definition appear (phase : R) : R := easeInOut (remap phase 0.7 1.0).

Definition setOpacity (o : R) (m : Material) : Material :=
  mkMaterial (color m) o true (metalness m) (roughness m).

(** The [useFrame] callback, lines 213-222. *)
Definition frame (t : R) (ms : Materials) : Materials :=
  let phase := phase t in
  let appear := appear phase in
  mkMaterials (setOpacity (0.9 * appear) (matRoad ms))
              (setOpacity (0.8 * appear) (matSidewalk ms))
              (setOpacity appear (matTreeTrunk ms))
              (setOpacity appear (matTreeLeaf ms)).

(** The road meshes of lines 224-240: for every [i] an X road, a plane of
    200 by 3.2 laid flat at [z = i], and a Z road, 3.2 by 200 at [x = i]. *)
Definition roadLines : list Z := for_loop 100 (-48) 48 16.

Definition roads : list Rect :=
  flat_map (fun i => [mkRect 0 (IZR i) 200 3.2; mkRect (IZR i) 0 3.2 200])
           roadLines.

(** The sidewalk meshes of lines 242-256, planes of 200 by 1.2 on the same
    lines. *)
Definition sidewalkLines : list Z := for_loop 100 (-48) 48 16.

Definition sidewalks : list Rect :=
  flat_map (fun i => [mkRect 0 (IZR i) 200 1.2; mkRect (IZR i) 0 1.2 200])
           sidewalkLines.

(** *** Trees, lines 258-280 *)

Record Park : Type := mkPark {
  draws : nat;                 (* calls of Math.random so far *)
  trees : list Vector3         (* positions of the tree groups *)
}.

Definition parkCoords : list Z := for_loop 100 (-40) 40 16.

Section Trees.

(** [random k] is what the [k]-th call of [Math.random ()] returns. *)
Variable random : nat -> R.

(** The body of the loop on [k] for the block at [(x, z)]. *)
Definition tree (x z : Z) (acc : Park) (k : nat) : Park :=
  let baseX := IZR x + 5 in
  let baseZ := IZR z + 5 in
  let ox := (random (draws acc) - 0.5) * 5 in
  let oz := (random (S (draws acc)) - 0.5) * 5 in
  mkPark (S (S (draws acc)))
         (trees acc ++ [(baseX + ox, 0.0, baseZ + oz)]).

(** [for (let k = 0; k < 5; k++)]. *)
Definition park (acc : Park) (xz : Z * Z) : Park :=
  fold_left (tree (fst xz) (snd xz)) (seq 0 5) acc.

Definition plant : Park :=
  fold_left park (list_prod parkCoords parkCoords) (mkPark 0 []).

End Trees.

End RoadsAndParks.

(** ** SimpleCranes (lines 291-331) *)

Module SimpleCranes.

Record Cranes : Type := mkCranes {
  mat : Material;
  rotationY : list R     (* of the children of the group, in order *)
}.

Definition craneOpacity (phase : R) : R :=
  let appear := remap phase 0.4 0.7 in
  appear * 0.8 * (1.0 - remap phase 0.7 1.0).

Fixpoint sway (t : R) (i : nat) (children : list R) : list R :=
  match children with
  | [] => []
  | _ :: rest => sin (t * 0.3 + INR i) * 0.2 :: sway t (S i) rest
  end.

(** The [useFrame] callback, lines 294-304. *)
Definition frame (mounted : bool) (t : R) (c : Cranes) : Cranes :=
  if negb mounted then c
  else
    let phase := phase t in
    mkCranes (mkMaterial (color (mat c)) (craneOpacity phase) true
                         (metalness (mat c)) (roughness (mat c)))
             (sway t 0 (rotationY c)).

Definition cranes0 : Cranes :=
  mkCranes (mkMaterial 0xf2c75b 1 false 0.5 0.4) [0; 0; 0].

(** Where the three cranes stand, lines 307-311. *)
Definition positions : list (R * R) := [(-30, -30); (32, -20); (-10, 26)].

End SimpleCranes.

(** ** CameraRig (lines 349-363) *)

Module CameraRig.

Definition radius : R := 90.

Definition orbit (phase : R) : R := 0.2 + 0.8 * easeInOut (remap phase 0.0 1.0).

Definition angle (t : R) : R := t * 0.12 + orbit (phase t) * PI * 1.5.

Definition y (t : R) : R := 25 + sin (t * 0.25) * 6.

(** The [useFrame] callback, lines 351-361: the new [camera.position]. *)
Definition frame (mounted : bool) (t : R) (camera : Vector3) : Vector3 :=
  if negb mounted then camera
  else (cos (angle t) * radius, y t, sin (angle t) * radius).

(** The camera of the canvas ([camera={{ fov: 50, ... }}] gives it no
    position) before the first frame. *)
Definition camera0 : Vector3 := (0, 0, 5).

End CameraRig.

(** ** Vocabulary of the properties *)

(** The mathematical remainder of a real by a positive real. *)
Definition Rmod (x y : R) : R := x - y * IZR (Int_part (x / y)).

(** The cell [(x, z)] is not on a road line. *)
Definition buildable (xz : Z * Z) : bool :=
  negb ((Z.rem (fst xz) 16 =? 0) || (Z.rem (snd xz) 16 =? 0))%Z.

(** The position [p] is that of a buildable cell of the grid, moved by a
    jitter in [-0.75, 0.75) on each axis. *)
Definition on_block (p : R * R) : Prop :=
  exists x z : Z,
    In x Buildings.coords /\ In z Buildings.coords /\
    Z.rem x 16 <> 0%Z /\ Z.rem z 16 <> 0%Z /\
    IZR x - 0.75 <= fst p < IZR x + 0.75 /\
    IZR z - 0.75 <= snd p < IZR z + 0.75.

(** The cell [c] of the grid and the position [p] drawn for it. *)
Definition jittered (c : Z * Z) (p : R * R) : Prop :=
  IZR (fst c) - 0.75 <= fst p < IZR (fst c) + 0.75 /\
  IZR (snd c) - 0.75 <= snd p < IZR (snd c) + 0.75.

(** Two cells are at least 16 units apart along one axis. *)
Definition far (c d : Z * Z) : bool :=
  ((16 <=? Z.abs (fst c - fst d)) || (16 <=? Z.abs (snd c - snd d)))%Z.

(** A building height: an integer from 4 to 21. *)
Definition storeys (h : R) : Prop :=
  exists k : Z, (4 <= k <= 21)%Z /\ h = IZR k.

(** The unit box of an instanced mesh under the matrix [m] reaches from
    [bottom m] to [top m]. *)
Definition bottom (m : Matrix4) : R := vy (position m) - vy (scale m) / 2.
Definition top (m : Matrix4) : R := vy (position m) + vy (scale m) / 2.

(** The rectangle [a] lies within the rectangle [b]. *)
Definition within (a b : Rect) : Prop :=
  Rabs (centerX a - centerX b) + sizeX a / 2 <= sizeX b / 2 /\
  Rabs (centerZ a - centerZ b) + sizeZ a / 2 <= sizeZ b / 2.

(** The tree at [v] stands on the block of the park at [(x, z)]. *)
Definition in_park (v : Vector3) : Prop :=
  exists x z : Z,
    In x RoadsAndParks.parkCoords /\ In z RoadsAndParks.parkCoords /\
    IZR x + 2.5 <= vx v < IZR x + 7.5 /\ vy v = 0 /\
    IZR z + 2.5 <= vz v < IZR z + 7.5.

(** The point [(x, z)] of the ground plane is on the rectangle [r]. *)
Definition stands_on (x z : R) (r : Rect) : Prop :=
  Rabs (x - centerX r) <= sizeX r / 2 /\
  Rabs (z - centerZ r) <= sizeZ r / 2.

(** [f k a0; f (k + 1) a1; ...]: a map that knows the index. *)
Fixpoint imap {A B : Type} (f : nat -> A -> B) (k : nat) (l : list A)
    : list B :=
  match l with
  | [] => []
  | a :: rest => f k a :: imap f (S k) rest
  end.

(** The footprint and the height of the [k]-th building, standing on the
    cell [c], from the draws [3 k], [3 k + 1] and [3 k + 2]. *)
Definition placed (random : nat -> R) (k : nat) (c : Z * Z) : R * R :=
  (IZR (fst c) + (random (3 * k)%nat * 1.5 - 0.75),
   IZR (snd c) + (random (3 * k + 1)%nat * 1.5 - 0.75)).

Definition raised (random : nat -> R) (k : nat) (c : Z * Z) : R :=
  4 + IZR (Int_part (random (3 * k + 2)%nat * 18)).

(** [f p] tends to [l] as the phase [p] approaches 1 from below. *)
Definition tends_to_at_1 (f : R -> R) (l : R) : Prop :=
  forall eps, 0 < eps ->
    exists delta, 0 < delta /\
      forall p, 1 - delta < p < 1 -> Rabs (f p - l) < eps.

(** * Properties *)

(** ** Clamping, remapping and easing *)

(** Case analysis on the comparisons of [Rmin] and [Rmax], innermost first. *)
Ltac case_clamp :=
  unfold clamp01, Rmin, Rmax;
  repeat match goal with
         | |- context [Rle_dec ?a ?b] =>
             lazymatch b with
             | context [Rle_dec _ _] => fail
             | _ => destruct (Rle_dec a b)
             end
         end.

Ltac case_ease :=
  unfold easeInOut;
  repeat match goal with
         | |- context [Rlt_dec ?a ?b] => destruct (Rlt_dec a b)
         end.

Lemma clamp01_range (x : R) : 0 <= clamp01 x <= 1.
Proof. case_clamp; lra. Qed.

Lemma clamp01_id (x : R) : 0 <= x <= 1 -> clamp01 x = x.
Proof. intros H. case_clamp; lra. Qed.

Lemma clamp01_low (x : R) : x <= 0 -> clamp01 x = 0.
Proof. intros H. case_clamp; lra. Qed.

Lemma clamp01_high (x : R) : 1 <= x -> clamp01 x = 1.
Proof. intros H. case_clamp; lra. Qed.

Lemma clamp01_le (x c : R) : 0 <= c -> x <= c -> clamp01 x <= c.
Proof. intros H0 H. case_clamp; lra. Qed.

Lemma clamp01_pos (x : R) : 0 < clamp01 x -> 0 < x.
Proof.
  intros H. destruct (Rle_dec x 0) as [Hx|Hx]; [|lra].
  rewrite (clamp01_low x Hx) in H. lra.
Qed.

Lemma remap_range (x a b : R) : 0 <= remap x a b <= 1.
Proof. apply clamp01_range. Qed.

Lemma remap_below (x a b : R) : a < b -> x <= a -> remap x a b = 0.
Proof.
  intros Hab Hx. unfold remap. apply clamp01_low.
  unfold Rdiv. assert (0 < / (b - a)) by (apply Rinv_0_lt_compat; lra). nra.
Qed.

Lemma remap_above (x a b : R) : a < b -> b <= x -> remap x a b = 1.
Proof.
  intros Hab Hx. unfold remap. apply clamp01_high.
  apply Rmult_le_reg_r with (b - a); [lra|].
  unfold Rdiv. rewrite Rmult_assoc, Rinv_l; lra.
Qed.

Lemma remap_inside (x a b : R) :
  a < b -> a <= x <= b -> remap x a b = (x - a) / (b - a).
Proof.
  intros Hab Hx. unfold remap. apply clamp01_id.
  assert (0 < / (b - a)) by (apply Rinv_0_lt_compat; lra).
  split.
  - unfold Rdiv. nra.
  - apply Rmult_le_reg_r with (b - a); [lra|].
    unfold Rdiv. rewrite Rmult_assoc, Rinv_l; lra.
Qed.

Lemma easeInOut_0 : easeInOut 0 = 0.
Proof. case_ease; lra. Qed.

Lemma easeInOut_1 : easeInOut 1 = 1.
Proof. case_ease; lra. Qed.

Lemma easeInOut_range (t : R) : 0 <= t <= 1 -> 0 <= easeInOut t <= 1.
Proof. intros H. case_ease; nra. Qed.

Lemma easeInOut_mono (s t : R) :
  0 <= s -> s <= t -> t <= 1 -> easeInOut s <= easeInOut t.
Proof. intros H0 Hst H1. case_ease; nra. Qed.

Lemma easeInOut_pos (t : R) : 0 < t <= 1 -> 0 < easeInOut t.
Proof. intros H. case_ease; nra. Qed.

(** On [0, 1] the easing curve has slope at most 2. *)
Lemma easeInOut_lipschitz (s t : R) :
  0 <= s -> s <= t -> t <= 1 -> easeInOut t - easeInOut s <= 2 * (t - s).
Proof. intros H0 Hst H1. case_ease; nra. Qed.

(** ** The phase *)

Lemma Int_part_bounds (r : R) : IZR (Int_part r) <= r < IZR (Int_part r) + 1.
Proof.
  destruct (base_Int_part r) as [H1 H2]. lra.
Qed.

Lemma Rtrunc_nonneg (x : R) : 0 <= x -> Rtrunc x = Int_part x.
Proof. intros H. unfold Rtrunc. destruct (Rle_dec 0 x); [reflexivity|lra]. Qed.

(** For a dividend that is not negative [%] is the mathematical [mod]. *)
Lemma js_rem_nonneg (x y : R) :
  0 <= x -> 0 < y -> js_rem x y = x - y * IZR (Int_part (x / y)).
Proof.
  intros Hx Hy. unfold js_rem. rewrite Rtrunc_nonneg; [reflexivity|].
  unfold Rdiv. assert (0 < / y) by (apply Rinv_0_lt_compat; lra). nra.
Qed.

Lemma phase_nonneg (t : R) :
  0 <= t -> phase t = t / 22 - IZR (Int_part (t / 22)).
Proof.
  intros Ht. unfold phase, CYCLE_SECONDS. rewrite js_rem_nonneg by lra. field.
Qed.

Lemma phase_range (t : R) : 0 <= t -> 0 <= phase t < 1.
Proof.
  intros Ht. rewrite phase_nonneg by assumption.
  pose proof (Int_part_bounds (t / 22)). lra.
Qed.

(** Within the [n]-th cycle the phase is [t / 22 - n]. *)
Lemma phase_in_cycle (t : R) (n : Z) :
  0 <= t -> IZR n * 22 <= t < (IZR n + 1) * 22 -> phase t = t / 22 - IZR n.
Proof.
  intros Ht Hn. rewrite phase_nonneg by assumption.
  replace (Int_part (t / 22)) with n; [reflexivity|].
  apply Int_part_spec. lra.
Qed.

Lemma phase_first_cycle (t : R) : 0 <= t < 22 -> phase t = t / 22.
Proof.
  intros Ht. rewrite (phase_in_cycle t 0) by lra. lra.
Qed.

Lemma phase_shift (t : R) : 0 <= t -> phase (t + 22) = phase t.
Proof.
  intros Ht.
  pose proof (Int_part_bounds (t / 22)) as Hb.
  rewrite (phase_in_cycle (t + 22) (Int_part (t / 22) + 1)).
  - rewrite phase_nonneg by assumption. rewrite plus_IZR. lra.
  - lra.
  - rewrite plus_IZR. lra.
Qed.

(** ** The model on concrete inputs *)

Example coords_values :
  Buildings.coords = [-40; -32; -24; -16; -8; 0; 8; 16; 24; 32; 40]%Z.
Proof. reflexivity. Qed.

Example roadLines_values :
  RoadsAndParks.roadLines = [-48; -32; -16; 0; 16; 32; 48]%Z.
Proof. reflexivity. Qed.

Example buildable_coords :
  filter (fun x => negb (Z.rem x 16 =? 0)%Z) Buildings.coords
    = [-40; -24; -8; 8; 24; 40]%Z.
Proof. reflexivity. Qed.

Example easeInOut_quarter : easeInOut 0.25 = 0.125.
Proof. case_ease; lra. Qed.

Example easeInOut_three_quarters : easeInOut 0.75 = 0.875.
Proof. case_ease; lra. Qed.

Example remap_midway : remap 0.55 0.4 0.7 = 0.5.
Proof. rewrite remap_inside; lra. Qed.

Example phase_27 : phase 27 = 5 / 22.
Proof. rewrite (phase_in_cycle 27 1); lra. Qed.

(** On a negative dividend [%] keeps the sign, as in JavaScript. *)
Example js_rem_negative : js_rem (-5) 22 = -5.
Proof.
  unfold js_rem, Rtrunc. destruct (Rle_dec 0 (-5 / 22)) as [H|_]; [lra|].
  replace (Int_part (- (-5 / 22))) with 0%Z; [cbn; lra|].
  apply Int_part_spec. lra.
Qed.

(** The values of the two linear ramps of the construction, by cases. *)
Lemma construct_cases (p : R) :
  (p <= 0.4 -> Buildings.construct p = 0) /\
  (0.4 <= p <= 0.7 -> Buildings.construct p = (p - 0.4) / 0.3) /\
  (0.7 <= p -> Buildings.construct p = 1).
Proof.
  unfold Buildings.construct. repeat split; intros H.
  - apply remap_below; lra.
  - rewrite remap_inside by lra. lra.
  - apply remap_above; lra.
Qed.

Lemma finish_cases (p : R) :
  (p <= 0.7 -> Buildings.finish p = 0) /\
  (0.7 <= p <= 1 -> Buildings.finish p = (p - 0.7) / 0.3) /\
  (1 <= p -> Buildings.finish p = 1).
Proof.
  unfold Buildings.finish. repeat split; intros H.
  - apply remap_below; lra.
  - rewrite remap_inside by lra. lra.
  - apply remap_above; lra.
Qed.

Lemma blueprint_appear_cases (p : R) :
  (p <= 0.2 -> BlueprintOverlay.appear p = 0) /\
  (0.2 <= p <= 0.4 -> BlueprintOverlay.appear p = (p - 0.2) / 0.2) /\
  (0.4 <= p -> BlueprintOverlay.appear p = 1).
Proof.
  unfold BlueprintOverlay.appear.
  rewrite clamp01_id by apply remap_range.
  repeat split; intros H.
  - apply remap_below; lra.
  - rewrite remap_inside by lra. lra.
  - apply remap_above; lra.
Qed.

(** ** The claims *)

(** C8: for every elapsed time [t >= 0] the phase of a frame is
    [(t mod 22) / 22], the cycle length being 22 seconds; it lies in [0, 1)
    and is periodic, [phase (t + 22) = phase t]. *)
Theorem phase_periodic (t : R) :
  0 <= t ->
  CYCLE_SECONDS = 22 /\
  phase t = Rmod t 22 / 22 /\
  0 <= phase t < 1 /\
  phase (t + 22) = phase t.
Proof.
  intros Ht. split; [reflexivity|]. split; [|split].
  - unfold phase, CYCLE_SECONDS, Rmod. rewrite js_rem_nonneg by lra.
    reflexivity.
  - apply phase_range; assumption.
  - apply phase_shift; assumption.
Qed.

Lemma phase_periodic_witness :
  0 <= 5 /\ 0 <= phase 5 < 1 /\ phase (5 + 22) = phase 5.
Proof.
  split; [lra|].
  destruct (phase_periodic 5) as (_ & _ & Hr & Hp); [lra|].
  split; assumption.
Defined.

(** C7: for every phase [p] each derived progress value (the ramps
    [construct], [finish] and both [appear], and the eased [foundationRise],
    [frameRise] and [skinAppear]) lies in [0, 1]; [remap x a b] with [a < b]
    lies in [0, 1] for every real [x], and [easeInOut] maps [0, 1] into
    [0, 1]. *)
Theorem progress_in_unit_interval (p x a b t : R) :
  a < b ->
  0 <= t <= 1 ->
  0 <= Buildings.construct p <= 1 /\
  0 <= Buildings.finish p <= 1 /\
  0 <= BlueprintOverlay.appear p <= 1 /\
  0 <= RoadsAndParks.appear p <= 1 /\
  0 <= Buildings.foundationRise p <= 1 /\
  0 <= Buildings.frameRise p <= 1 /\
  0 <= Buildings.skinAppear p <= 1 /\
  0 <= remap x a b <= 1 /\
  0 <= easeInOut t <= 1.
Proof.
  intros Hab Ht.
  unfold Buildings.foundationRise, Buildings.frameRise, Buildings.skinAppear,
    Buildings.construct, Buildings.finish, BlueprintOverlay.appear,
    RoadsAndParks.appear.
  repeat split;
    solve [ apply remap_range | apply clamp01_range
          | apply easeInOut_range; first [apply remap_range | apply clamp01_range | exact Ht] ].
Qed.

Lemma progress_in_unit_interval_witness :
  0.4 < 0.7 /\ 0 <= 0.25 <= 1 /\
  0 <= Buildings.frameRise 0.55 <= 1 /\ 0 <= remap 0.9 0.4 0.7 <= 1 /\
  0 <= easeInOut 0.25 <= 1.
Proof.
  split; [lra|]. split; [lra|].
  destruct (progress_in_unit_interval 0.55 0.9 0.4 0.7 0.25)
    as (_ & _ & _ & _ & _ & Hf & _ & Hr & He); [lra|lra|].
  repeat split; first [apply Hf | apply Hr | apply He].
Defined.

Lemma frameRise_pos_iff (p : R) : 0 < Buildings.frameRise p <-> 97 / 220 < p.
Proof.
  destruct (construct_cases p) as (Hlo & Hmid & Hhi).
  unfold Buildings.frameRise. split.
  - intros H. destruct (Rlt_dec (97 / 220) p) as [|Hn]; [assumption|exfalso].
    assert (Hc : Buildings.construct p * 1.1 - 0.15 <= 0).
    { destruct (Rle_dec p 0.4) as [Hp|Hp].
      - rewrite Hlo by lra. lra.
      - rewrite Hmid by lra. lra. }
    rewrite (clamp01_low _ Hc), easeInOut_0 in H. lra.
  - intros H. apply easeInOut_pos.
    destruct (Rle_dec 0.7 p) as [Hp|Hp].
    + rewrite Hhi by lra. rewrite clamp01_id; lra.
    + rewrite Hmid by lra. rewrite clamp01_id; lra.
Qed.

Lemma eased_ramp_pos_iff (p a b : R) :
  a < b -> 0 < easeInOut (remap p a b) <-> a < p.
Proof.
  intros Hab. split.
  - intros H. destruct (Rlt_dec a p) as [|Hn]; [assumption|exfalso].
    rewrite remap_below, easeInOut_0 in H; lra.
  - intros H. apply easeInOut_pos. destruct (Rle_dec b p) as [Hp|Hp].
    + rewrite remap_above; lra.
    + rewrite remap_inside by lra.
      assert (0 < / (b - a)) by (apply Rinv_0_lt_compat; lra).
      split; [unfold Rdiv; nra|].
      apply Rmult_le_reg_r with (b - a); [lra|].
      unfold Rdiv. rewrite Rmult_assoc, Rinv_l; lra.
Qed.

(** C6: for every phase (so for every phase in [0, 1)) [frameRise] is at
    most [foundationRise]; foundations start to rise after phase 0.4, frames
    after phase 97/220 (about 0.441) and skins after phase 0.7 only, each
    value being the easing of its own clamped sub-range of the phase: the
    frames lag the foundations and the skins lag the frames. *)
Theorem construction_order (p : R) :
  Buildings.frameRise p <= Buildings.foundationRise p /\
  (0 < Buildings.foundationRise p <-> 0.4 < p) /\
  (0 < Buildings.frameRise p <-> 97 / 220 < p) /\
  (0 < Buildings.skinAppear p <-> 0.7 < p) /\
  Buildings.foundationRise p = easeInOut (remap p 0.4 0.7) /\
  Buildings.frameRise p = easeInOut (clamp01 (remap p 0.4 0.7 * 1.1 - 0.15)) /\
  Buildings.skinAppear p = easeInOut (remap p 0.7 1.0).
Proof.
  split; [|split; [|split; [|split; [|repeat split]]]].
  - unfold Buildings.frameRise, Buildings.foundationRise.
    pose proof (remap_range p 0.4 0.7) as Hc.
    fold (Buildings.construct p) in Hc.
    apply easeInOut_mono.
    + apply clamp01_range.
    + apply clamp01_le; lra.
    + lra.
  - apply eased_ramp_pos_iff. lra.
  - apply frameRise_pos_iff.
  - unfold Buildings.skinAppear, Buildings.finish.
    apply eased_ramp_pos_iff. lra.
Qed.

Lemma instances_scale_y (mk : R -> R -> R -> Matrix4) (v : R) (hs : list R)
    (fps : list (R * R)) :
  (forall h x z, snd (fst (scale (mk h x z))) = v) ->
  forall i m, In m (Buildings.instances mk hs i fps) ->
              snd (fst (scale m)) = v.
Proof.
  intros Hmk. induction fps as [|[x z] rest IH]; intros i m Hin.
  - destruct Hin.
  - destruct Hin as [<-|Hin]; [apply Hmk|apply (IH (S i)); exact Hin].
Qed.

(** C9: at every frame the opacity of the skin material is
    [clamp01 (0.15 + 0.85 * skinAppear)], hence at least 0.15: the skins are
    never fully transparent.  While the phase is at most 0.7 (ground,
    blueprint and construction) the opacity is exactly 0.15 and every skin
    instance is flattened to the minimum vertical scale 0.01. *)
Theorem skin_opacity_floor (lay : Buildings.Layout) (t : R)
    (ms : Buildings.Meshes) :
  let after := Buildings.frame true lay t ms in
  opacity (Buildings.sMat after)
    = clamp01 (0.15 + 0.85 * Buildings.skinAppear (phase t)) /\
  0.15 <= opacity (Buildings.sMat after) <= 1 /\
  (phase t <= 0.7 ->
   opacity (Buildings.sMat after) = 0.15 /\
   forall m, In m (Buildings.skinInstances after) ->
             snd (fst (scale m)) = 0.01).
Proof.
  cbn. split; [reflexivity|].
  assert (Hs : 0 <= Buildings.skinAppear (phase t) <= 1).
  { unfold Buildings.skinAppear. apply easeInOut_range, remap_range. }
  split.
  - rewrite clamp01_id; lra.
  - intros Hp.
    assert (H0 : Buildings.skinAppear (phase t) = 0).
    { unfold Buildings.skinAppear.
      destruct (finish_cases (phase t)) as (Hlo & _).
      rewrite (Hlo Hp). apply easeInOut_0. }
    split.
    + rewrite H0, clamp01_id; lra.
    + apply instances_scale_y. intros h x z.
      unfold Buildings.skinMatrix. cbn. rewrite H0.
      rewrite clamp01_low by lra. unfold Rmax.
      destruct (Rle_dec _ _); lra.
Qed.

Lemma craneOpacity_late (p : R) :
  0.7 <= p <= 1 -> SimpleCranes.craneOpacity p = 8 / 3 * (1 - p).
Proof.
  intros Hp. unfold SimpleCranes.craneOpacity.
  rewrite remap_above, remap_inside by lra. lra.
Qed.

Lemma craneOpacity_pos (p : R) :
  0 < SimpleCranes.craneOpacity p -> 0.4 < p < 1.
Proof.
  unfold SimpleCranes.craneOpacity. intros H.
  destruct (Rle_dec p 0.4) as [Hlo|Hlo].
  { rewrite (remap_below p 0.4 0.7) in H; lra. }
  destruct (Rle_dec 1 p) as [Hhi|Hhi].
  { rewrite (remap_above p 0.7 1.0) in H; lra. }
  lra.
Qed.

(** C10: the opacity the frame callback gives the crane material is
    [0.8 * remap (phase, 0.4, 0.7) * (1 - remap (phase, 0.7, 1.0))]; it is 0
    at phase 0 and tends to 0 as the phase approaches 1, and it is positive
    only at phases strictly between 0.4 and 1: the cranes have faded out
    completely at the loop point. *)
Theorem crane_opacity_loop (t : R) (c : SimpleCranes.Cranes) :
  opacity (SimpleCranes.mat (SimpleCranes.frame true t c))
    = 0.8 * remap (phase t) 0.4 0.7 * (1 - remap (phase t) 0.7 1.0) /\
  SimpleCranes.craneOpacity 0 = 0 /\
  tends_to_at_1 SimpleCranes.craneOpacity 0 /\
  (forall p, 0 < SimpleCranes.craneOpacity p -> 0.4 < p < 1).
Proof.
  split; [|split; [|split]].
  - cbn. unfold SimpleCranes.craneOpacity. nra.
  - unfold SimpleCranes.craneOpacity. rewrite (remap_below 0 0.4 0.7); lra.
  - intros eps Heps. exists (Rmin 0.3 (3 / 8 * eps)). split.
    + unfold Rmin. destruct (Rle_dec _ _); lra.
    + intros p [Hlo Hhi].
      assert (H1 : Rmin 0.3 (3 / 8 * eps) <= 0.3) by apply Rmin_l.
      assert (H2 : Rmin 0.3 (3 / 8 * eps) <= 3 / 8 * eps) by apply Rmin_r.
      rewrite craneOpacity_late by lra.
      rewrite Rabs_right; lra.
  - apply craneOpacity_pos.
Qed.

(** ** Footprints and roads *)

Section Footprints.

Variable random : nat -> R.
Hypothesis random_range : forall k, 0 <= random k < 1.

Lemma cell_skips (acc : Buildings.Layout) (x z : Z) :
  Z.rem x 16 = 0%Z \/ Z.rem z 16 = 0%Z ->
  Buildings.cell random acc (x, z) = acc.
Proof.
  intros H. unfold Buildings.cell.
  replace ((Z.rem x 16 =? 0) || (Z.rem z 16 =? 0))%Z with true; [reflexivity|].
  symmetry. apply orb_true_iff. rewrite !Z.eqb_eq. exact H.
Qed.

Lemma cell_on_block (acc : Buildings.Layout) (xz : Z * Z) :
  In xz (list_prod Buildings.coords Buildings.coords) ->
  Forall on_block (Buildings.footprints acc) ->
  Forall on_block (Buildings.footprints (Buildings.cell random acc xz)).
Proof.
  destruct xz as [x z]. intros Hin Hacc. unfold Buildings.cell.
  destruct ((Z.rem x 16 =? 0) || (Z.rem z 16 =? 0))%Z eqn:Hroad;
    [exact Hacc|].
  apply orb_false_iff in Hroad. destruct Hroad as [Hx Hz].
  apply Z.eqb_neq in Hx, Hz. apply in_prod_iff in Hin.
  cbn [Buildings.footprints]. apply Forall_app. split; [exact Hacc|].
  constructor; [|constructor].
  exists x, z. cbn [fst snd].
  pose proof (random_range (Buildings.calls acc)).
  pose proof (random_range (S (Buildings.calls acc))).
  repeat split; try tauto; lra.
Qed.

Lemma fold_cell_on_block (cells : list (Z * Z)) :
  forall acc,
    incl cells (list_prod Buildings.coords Buildings.coords) ->
    Forall on_block (Buildings.footprints acc) ->
    Forall on_block
      (Buildings.footprints (fold_left (Buildings.cell random) cells acc)).
Proof.
  induction cells as [|c cells IH]; intros acc Hincl Hacc; [exact Hacc|].
  cbn [fold_left]. apply IH.
  - intros c' Hc'. apply Hincl. right. exact Hc'.
  - apply cell_on_block; [apply Hincl; left; reflexivity|exact Hacc].
Qed.

Lemma fold_cell_length (cells : list (Z * Z)) :
  forall acc,
    let lay := fold_left (Buildings.cell random) cells acc in
    length (Buildings.footprints lay)
      = (length (Buildings.footprints acc) + length (filter buildable cells))%nat
    /\ length (Buildings.heights lay)
      = (length (Buildings.heights acc) + length (filter buildable cells))%nat.
Proof.
  induction cells as [|[x z] cells IH]; intros acc; cbn zeta.
  - cbn. split; apply plus_n_O.
  - cbn [fold_left filter]. specialize (IH (Buildings.cell random acc (x, z))).
    cbn zeta in IH. destruct IH as [IHf IHh]. rewrite IHf, IHh.
    unfold buildable, Buildings.cell. cbn [fst snd].
    destruct ((Z.rem x 16 =? 0) || (Z.rem z 16 =? 0))%Z; cbn [negb].
    + split; reflexivity.
    + cbn [Buildings.footprints Buildings.heights length].
      rewrite !length_app. cbn [length]. split; lia.
Qed.

End Footprints.

Lemma instances_in (mk : R -> R -> R -> Matrix4) (hs : list R)
    (fps : list (R * R)) :
  forall i m, In m (Buildings.instances mk hs i fps) ->
              exists h x z, In (x, z) fps /\ m = mk h x z.
Proof.
  induction fps as [|[x z] rest IH]; intros i m Hin.
  - destruct Hin.
  - destruct Hin as [<-|Hin].
    + exists (nth i hs 0), x, z. split; [left|]; reflexivity.
    + destruct (IH (S i) m Hin) as (h & x' & z' & Hin' & ->).
      exists h, x', z'. split; [right; exact Hin'|reflexivity].
Qed.

(** A buildable coordinate is at least 8 units from every road line. *)
Lemma coords_far_from_roads (x i : Z) :
  In x Buildings.coords -> Z.rem x 16 <> 0%Z -> In i RoadsAndParks.roadLines ->
  8 <= Rabs (IZR x - IZR i).
Proof.
  intros Hx Hrem Hi.
  assert (Hall : forallb (fun x => (Z.rem x 16 =? 0) ||
                   forallb (fun i => 8 <=? Z.abs (x - i)) RoadsAndParks.roadLines)%Z
                   Buildings.coords = true) by (vm_compute; reflexivity).
  rewrite forallb_forall in Hall. specialize (Hall x Hx).
  apply orb_true_iff in Hall. destruct Hall as [H0|Hall].
  { apply Z.eqb_eq in H0. contradiction. }
  rewrite forallb_forall in Hall. specialize (Hall i Hi).
  apply Z.leb_le in Hall.
  rewrite <- minus_IZR, <- abs_IZR. apply IZR_le. exact Hall.
Qed.

Lemma roads_in (r : Rect) :
  In r RoadsAndParks.roads ->
  exists i, In i RoadsAndParks.roadLines /\
            (r = mkRect 0 (IZR i) 200 3.2 \/ r = mkRect (IZR i) 0 3.2 200).
Proof.
  unfold RoadsAndParks.roads. rewrite in_flat_map.
  intros (i & Hi & Hr). exists i. split; [exact Hi|].
  destruct Hr as [Hr|[Hr|Hr]]; [left|right|destruct Hr]; symmetry; exact Hr.
Qed.

Lemma on_block_clear_of_roads (p : R * R) (h phase : R) (r : Rect) :
  on_block p -> In r RoadsAndParks.roads ->
  ~ overlaps (Buildings.skinRect (Buildings.skinMatrix phase h (fst p) (snd p))) r.
Proof.
  intros (x & z & Hx & Hz & Hrx & Hrz & Hpx & Hpz) Hr [Hmx Hmz].
  destruct (roads_in r Hr) as (i & Hi & [-> | ->]);
    unfold meets in Hmx, Hmz; cbn in Hmx, Hmz.
  - pose proof (coords_far_from_roads z i Hz Hrz Hi) as Hfar.
    revert Hmz Hfar. unfold Rabs.
    destruct (Rcase_abs _), (Rcase_abs _); lra.
  - pose proof (coords_far_from_roads x i Hx Hrx Hi) as Hfar.
    revert Hmx Hfar. unfold Rabs.
    destruct (Rcase_abs _), (Rcase_abs _); lra.
Qed.

(** The skins of a layout whose footprints are all on blocks are clear of
    the roads at every frame. *)
Lemma skins_clear_of_roads (lay : Buildings.Layout) (t : R)
    (ms : Buildings.Meshes) (m : Matrix4) (r : Rect) :
  Forall on_block (Buildings.footprints lay) ->
  In m (Buildings.skinInstances (Buildings.frame true lay t ms)) ->
  In r RoadsAndParks.roads ->
  fst (fst (scale m)) = 2.8 /\ snd (scale m) = 2.8 /\
  ~ overlaps (Buildings.skinRect m) r.
Proof.
  intros Hblock Hm Hr.
  unfold Buildings.frame in Hm. cbn [negb Buildings.skinInstances] in Hm.
  destruct (instances_in _ _ _ _ _ Hm) as (h & x & z & Hin & ->).
  split; [reflexivity|]. split; [reflexivity|].
  rewrite Forall_forall in Hblock.
  apply (on_block_clear_of_roads (x, z) h (phase t) r (Hblock _ Hin) Hr).
Qed.

Lemma buildable_cells :
  length (filter buildable (list_prod Buildings.coords Buildings.coords))
    = 36%nat.
Proof. vm_compute. reflexivity. Qed.

(** C5: whatever [Math.random] returns (each draw in [0, 1), so each jitter
    in [-0.75, 0.75), and any height), the footprint generation skips every
    cell with [x % 16 === 0] or [z % 16 === 0]; each of the 36 footprints is
    a buildable cell moved by its jitter; and at every frame no skin
    instance (a square of 2.8 units about the jittered position) overlaps a
    road strip (3.2 units wide, on the lines at the multiples of 16 from -48
    to 48). *)
Theorem footprints_avoid_roads (random : nat -> R) :
  (forall k, 0 <= random k < 1) ->
  let lay := Buildings.generate random in
  (forall acc x z, Z.rem x 16 = 0%Z \/ Z.rem z 16 = 0%Z ->
                   Buildings.cell random acc (x, z) = acc) /\
  length (Buildings.footprints lay) = 36%nat /\
  length (Buildings.heights lay) = 36%nat /\
  Forall on_block (Buildings.footprints lay) /\
  (forall t ms m r,
     In m (Buildings.skinInstances (Buildings.frame true lay t ms)) ->
     In r RoadsAndParks.roads ->
     fst (fst (scale m)) = 2.8 /\ snd (scale m) = 2.8 /\
     (~ overlaps (Buildings.skinRect m) r)).
Proof.
  intros Hrandom lay.
  assert (Hblock : Forall on_block (Buildings.footprints lay)).
  { apply fold_cell_on_block; [exact Hrandom|apply incl_refl|constructor]. }
  split; [intros acc x z; apply cell_skips|].
  destruct (fold_cell_length random
              (list_prod Buildings.coords Buildings.coords)
              (Buildings.mkLayout 0 [] [])) as [Hlf Hlh].
  rewrite buildable_cells in Hlf, Hlh.
  split; [exact Hlf|]. split; [exact Hlh|]. split; [exact Hblock|].
  intros t ms m r. apply skins_clear_of_roads. exact Hblock.
Qed.

Lemma footprints_avoid_roads_witness :
  (forall k : nat, 0 <= (fun _ : nat => 0.5) k < 1) /\
  length (Buildings.footprints (Buildings.generate (fun _ => 0.5))) = 36%nat /\
  Forall on_block (Buildings.footprints (Buildings.generate (fun _ => 0.5))).
Proof.
  split; [intros k; lra|].
  destruct (footprints_avoid_roads (fun _ => 0.5)) as (_ & Hl & _ & Hb & _);
    [intros k; lra|].
  split; [exact Hl|exact Hb].
Defined.

(** ** The blueprint grid *)

Lemma pulse_range (t : R) : 0.2 <= BlueprintOverlay.pulse t <= 1.
Proof.
  unfold BlueprintOverlay.pulse. pose proof (SIN_bound (t * 2.2)). lra.
Qed.

Lemma gridOpacity_eq (t : R) :
  BlueprintOverlay.gridOpacity t
    = BlueprintOverlay.appear (phase t) * BlueprintOverlay.pulse t.
Proof. reflexivity. Qed.

Lemma grid_from_phase_04 (t : R) :
  0 <= t ->
  0.4 <= phase t ->
  BlueprintOverlay.gridOpacity t = 0.6 + 0.4 * sin (t * 2.2) /\
  0.2 <= BlueprintOverlay.gridOpacity t.
Proof.
  intros Ht Hp. rewrite gridOpacity_eq.
  destruct (blueprint_appear_cases (phase t)) as (_ & _ & Hhi).
  rewrite (Hhi Hp). pose proof (pulse_range t) as Hpulse.
  unfold BlueprintOverlay.pulse in *. lra.
Qed.

(** C3: the grid does fade in between the phases 0.2 and 0.4, but it never
    fades out again: from phase 0.4 on [appear] stays at 1 and the opacity is
    the pulse [0.6 + 0.4 * sin (2.2 * t)], which is at least 0.2.  The claim
    (and the comment at the head of the source, "Blueprint overlay fades
    in/out") asks for opacity 0 there. *)
Theorem blueprint_grid_stays_on (t : R) :
  0 <= t ->
  0.4 <= phase t ->
  BlueprintOverlay.gridOpacity t = 0.6 + 0.4 * sin (t * 2.2) /\
  0.2 <= BlueprintOverlay.gridOpacity t.
Proof.
  apply grid_from_phase_04.
Qed.

Lemma blueprint_grid_stays_on_witness :
  0 <= 11 /\ 0.4 <= phase 11 /\ 0.2 <= BlueprintOverlay.gridOpacity 11.
Proof.
  assert (Hp : 0.4 <= phase 11) by (rewrite phase_first_cycle; lra).
  split; [lra|]. split; [exact Hp|].
  apply (blueprint_grid_stays_on 11); [lra|exact Hp].
Defined.

(** C1: with the cycle of 22 s, at [t = 5] the phase is 5/22 and the grid
    opacity is positive; at [t = 20] the phase is 10/11 and the skin opacity
    is 919/1089 (about 0.844); but the grid opacity at [t = 20] is the pulse
    [0.6 + 0.4 * sin 44], at least 0.2, not the 0 the scenario asks for. *)
Theorem scenario_5s_20s (lay : Buildings.Layout) :
  CYCLE_SECONDS = 22 /\
  phase 5 = 5 / 22 /\
  0 < BlueprintOverlay.gridOpacity 5 /\
  phase 20 = 10 / 11 /\
  Buildings.skinOpacity lay 20 = 919 / 1089 /\
  BlueprintOverlay.gridOpacity 20 = 0.6 + 0.4 * sin (20 * 2.2) /\
  0.2 <= BlueprintOverlay.gridOpacity 20.
Proof.
  assert (H5 : phase 5 = 5 / 22) by (apply phase_first_cycle; lra).
  assert (H20 : phase 20 = 10 / 11) by (rewrite phase_first_cycle; lra).
  split; [reflexivity|]. split; [exact H5|]. split; [|split; [exact H20|split]].
  - rewrite gridOpacity_eq, H5.
    destruct (blueprint_appear_cases (5 / 22)) as (_ & Hmid & _).
    rewrite Hmid by lra. pose proof (pulse_range 5). nra.
  - unfold Buildings.skinOpacity, Buildings.frame. cbn [negb Buildings.sMat opacity].
    rewrite H20. unfold Buildings.skinAppear.
    destruct (finish_cases (10 / 11)) as (_ & Hmid & _).
    rewrite Hmid by lra.
    replace ((10 / 11 - 0.7) / 0.3) with (23 / 33) by lra.
    replace (easeInOut (23 / 33)) with (889 / 1089) by (case_ease; lra).
    rewrite clamp01_id; lra.
  - apply grid_from_phase_04; [lra|rewrite H20; lra].
Qed.

(** ** The loop point *)

Lemma tends_unique (f : R -> R) (l1 l2 : R) :
  tends_to_at_1 f l1 -> tends_to_at_1 f l2 -> l1 = l2.
Proof.
  intros H1 H2.
  destruct (Req_dec l1 l2) as [|Hne]; [assumption|exfalso].
  assert (Heps : 0 < Rabs (l1 - l2) / 2).
  { assert (0 < Rabs (l1 - l2)) by (apply Rabs_pos_lt; lra). lra. }
  destruct (H1 _ Heps) as (d1 & Hd1 & Hf1).
  destruct (H2 _ Heps) as (d2 & Hd2 & Hf2).
  set (p := 1 - Rmin d1 d2 / 2).
  assert (Hm : 0 < Rmin d1 d2) by (apply Rmin_pos; assumption).
  pose proof (Rmin_l d1 d2). pose proof (Rmin_r d1 d2).
  specialize (Hf1 p). specialize (Hf2 p).
  assert (Hp1 : 1 - d1 < p < 1) by (unfold p; lra).
  assert (Hp2 : 1 - d2 < p < 1) by (unfold p; lra).
  specialize (Hf1 Hp1). specialize (Hf2 Hp2).
  revert Hf1 Hf2 Heps. unfold Rabs.
  repeat destruct (Rcase_abs _); lra.
Qed.

(** A function that is constant on [0.7, 1) tends to that constant. *)
Lemma tends_const (f : R -> R) (l : R) :
  (forall p, 0.7 <= p < 1 -> f p = l) -> tends_to_at_1 f l.
Proof.
  intros Hf eps Heps. exists 0.3. split; [lra|].
  intros p Hp. rewrite Hf by lra.
  replace (l - l) with 0 by lra. rewrite Rabs_R0. exact Heps.
Qed.

Lemma finish_tends : tends_to_at_1 Buildings.finish 1.
Proof.
  intros eps Heps. exists (Rmin 0.3 (0.3 * eps)).
  pose proof (Rmin_l 0.3 (0.3 * eps)). pose proof (Rmin_r 0.3 (0.3 * eps)).
  split; [apply Rmin_pos; lra|].
  intros p Hp. destruct (finish_cases p) as (_ & Hmid & _).
  rewrite Hmid by lra. rewrite Rabs_left; lra.
Qed.

Lemma skinAppear_tends : tends_to_at_1 Buildings.skinAppear 1.
Proof.
  intros eps Heps. exists (Rmin 0.3 (0.15 * eps)).
  pose proof (Rmin_l 0.3 (0.15 * eps)). pose proof (Rmin_r 0.3 (0.15 * eps)).
  split; [apply Rmin_pos; lra|].
  intros p Hp. unfold Buildings.skinAppear.
  destruct (finish_cases p) as (_ & Hmid & _).
  pose proof (remap_range p 0.7 1.0) as Hr. fold (Buildings.finish p) in Hr.
  pose proof (easeInOut_lipschitz (Buildings.finish p) 1) as Hl.
  pose proof (easeInOut_range (Buildings.finish p) Hr) as He.
  rewrite easeInOut_1 in Hl. rewrite Hmid in * by lra.
  destruct (Req_dec (easeInOut ((p - 0.7) / 0.3)) 1) as [->|Hne].
  - replace (1 - 1) with 0 by lra. rewrite Rabs_R0. exact Heps.
  - rewrite Rabs_left; lra.
Qed.

(** C2: at phase 0 every derived progress value is 0, but as the phase
    approaches 1 the values tend to 1 ([frameRise] to 0.995): none of them
    returns to its value at the start of the cycle, and nothing in the
    callbacks fades the end of a cycle into its start, although the comment
    at the head of the source announces a crossfade to the start. *)
Theorem loop_point_values :
  (BlueprintOverlay.appear 0 = 0 /\ tends_to_at_1 BlueprintOverlay.appear 1) /\
  (Buildings.construct 0 = 0 /\ tends_to_at_1 Buildings.construct 1) /\
  (Buildings.finish 0 = 0 /\ tends_to_at_1 Buildings.finish 1) /\
  (Buildings.foundationRise 0 = 0 /\
   tends_to_at_1 Buildings.foundationRise 1) /\
  (Buildings.frameRise 0 = 0 /\ tends_to_at_1 Buildings.frameRise 0.995) /\
  (Buildings.skinAppear 0 = 0 /\ tends_to_at_1 Buildings.skinAppear 1) /\
  (forall f,
     In f [BlueprintOverlay.appear; Buildings.construct; Buildings.finish;
           Buildings.foundationRise; Buildings.frameRise;
           Buildings.skinAppear] ->
     ~ tends_to_at_1 f (f 0)).
Proof.
  destruct (blueprint_appear_cases 0) as (Ha0 & _).
  destruct (construct_cases 0) as (Hc0 & _).
  destruct (finish_cases 0) as (Hf0 & _).
  assert (Ha : tends_to_at_1 BlueprintOverlay.appear 1).
  { apply tends_const. intros p Hp.
    destruct (blueprint_appear_cases p) as (_ & _ & H). apply H. lra. }
  assert (Hc : tends_to_at_1 Buildings.construct 1).
  { apply tends_const. intros p Hp.
    destruct (construct_cases p) as (_ & _ & H). apply H. lra. }
  assert (Hfd : tends_to_at_1 Buildings.foundationRise 1).
  { apply tends_const. intros p Hp. unfold Buildings.foundationRise.
    destruct (construct_cases p) as (_ & _ & H). rewrite H by lra.
    apply easeInOut_1. }
  assert (Hfr : tends_to_at_1 Buildings.frameRise 0.995).
  { apply tends_const. intros p Hp. unfold Buildings.frameRise.
    destruct (construct_cases p) as (_ & _ & H). rewrite H by lra.
    rewrite clamp01_id by lra. case_ease; lra. }
  assert (Hfd0 : Buildings.foundationRise 0 = 0).
  { unfold Buildings.foundationRise. rewrite Hc0 by lra. apply easeInOut_0. }
  assert (Hfr0 : Buildings.frameRise 0 = 0).
  { unfold Buildings.frameRise. rewrite Hc0 by lra.
    rewrite clamp01_low by lra. apply easeInOut_0. }
  assert (Hs0 : Buildings.skinAppear 0 = 0).
  { unfold Buildings.skinAppear. rewrite Hf0 by lra. apply easeInOut_0. }
  repeat split;
    try solve [ apply Ha0; lra | apply Hc0; lra | apply Hf0; lra
              | assumption | apply finish_tends | apply skinAppear_tends ].
  intros f Hin Hlim. cbn [In] in Hin.
  destruct Hin as [<-|[<-|[<-|[<-|[<-|[<-|[]]]]]]].
  - rewrite Ha0 in Hlim by lra. pose proof (tends_unique _ _ _ Hlim Ha). lra.
  - rewrite Hc0 in Hlim by lra. pose proof (tends_unique _ _ _ Hlim Hc). lra.
  - rewrite Hf0 in Hlim by lra.
    pose proof (tends_unique _ _ _ Hlim finish_tends). lra.
  - rewrite Hfd0 in Hlim. pose proof (tends_unique _ _ _ Hlim Hfd). lra.
  - rewrite Hfr0 in Hlim. pose proof (tends_unique _ _ _ Hlim Hfr). lra.
  - rewrite Hs0 in Hlim.
    pose proof (tends_unique _ _ _ Hlim skinAppear_tends). lra.
Qed.

(** ** The camera *)

Lemma PI_bounds : 3 < PI <= 4.
Proof. pose proof PI2_3_2. pose proof PI_4. lra. Qed.

Lemma orbit_eq (p : R) :
  0 <= p <= 1 -> CameraRig.orbit p = 0.2 + 0.8 * easeInOut p.
Proof.
  intros Hp. unfold CameraRig.orbit. rewrite remap_inside by lra.
  replace ((p - 0.0) / (1.0 - 0.0)) with p by lra. reflexivity.
Qed.

Lemma angle_eq (t : R) :
  0 <= t ->
  CameraRig.angle t = 0.12 * t + 1.2 * (PI * easeInOut (phase t)) + 0.3 * PI.
Proof.
  intros Ht. unfold CameraRig.angle.
  rewrite orbit_eq by (pose proof (phase_range t Ht); lra). lra.
Qed.

Lemma camera_radius (t : R) (camera : Vector3) :
  let pos := CameraRig.frame true t camera in
  vx pos * vx pos + vz pos * vz pos = 90 * 90.
Proof.
  cbn. unfold CameraRig.radius.
  pose proof (sin2_cos2 (CameraRig.angle t)) as H. unfold Rsqr in H. nra.
Qed.

Lemma camera_height (t : R) (camera : Vector3) :
  let pos := CameraRig.frame true t camera in
  vy pos = 25 + 6 * sin (0.25 * t) /\ 19 <= vy pos <= 31.
Proof.
  cbn. unfold CameraRig.y. replace (0.25 * t) with (t * 0.25) by lra.
  pose proof (SIN_bound (t * 0.25)). lra.
Qed.

(** Within one cycle the angle does not decrease and grows at most
    linearly: it is a continuous function of the elapsed time there. *)
Lemma angle_within_cycle (s t : R) (n : Z) :
  0 <= s -> IZR n * 22 <= s -> s <= t -> t < (IZR n + 1) * 22 ->
  0 <= CameraRig.angle t - CameraRig.angle s <= (0.12 + 6 / 55 * PI) * (t - s).
Proof.
  intros Hs Hlo Hst Hhi.
  rewrite !angle_eq by lra.
  rewrite (phase_in_cycle s n), (phase_in_cycle t n) by lra.
  set (ps := s / 22 - IZR n). set (pt := t / 22 - IZR n).
  assert (Hps : 0 <= ps) by (unfold ps; lra).
  assert (Hpp : ps <= pt) by (unfold ps, pt; lra).
  assert (Hpt : pt <= 1) by (unfold pt; lra).
  pose proof (easeInOut_mono ps pt Hps Hpp Hpt) as Hm.
  pose proof (easeInOut_lipschitz ps pt Hps Hpp Hpt) as Hl.
  assert (Hd : pt - ps = (t - s) / 22) by (unfold ps, pt; lra).
  destruct PI_bounds as [HPI _].
  assert (H1 : 0 <= PI * (easeInOut pt - easeInOut ps)).
  { apply Rmult_le_pos; lra. }
  assert (H2 : PI * (easeInOut pt - easeInOut ps) <= PI * ((t - s) / 11)).
  { apply Rmult_le_compat_l; lra. }
  lra.
Qed.

(** Just before the end of a cycle the angle is ahead of the angle at the
    start of the next cycle by between 3 and 5 radians, which is less than a
    full turn: at the wrap of the phase the camera jumps. *)
Lemma angle_jump (t : R) :
  21.9 <= t < 22 -> 3 < CameraRig.angle t - CameraRig.angle 22 < 5.
Proof.
  intros Ht. rewrite !angle_eq by lra.
  rewrite (phase_in_cycle 22 1), (phase_first_cycle t) by lra.
  replace (22 / 22 - 1) with 0 by lra. rewrite easeInOut_0.
  assert (He : 0.9998 <= easeInOut (t / 22) <= 1).
  { split.
    - replace 0.9998 with (easeInOut 0.99) by (case_ease; lra).
      apply easeInOut_mono; lra.
    - apply easeInOut_range. lra. }
  destruct PI_bounds as [HPI3 HPI4].
  assert (H1 : 3 * 0.9998 <= PI * easeInOut (t / 22)).
  { apply Rmult_le_compat; lra. }
  assert (H2 : PI * easeInOut (t / 22) <= 4 * 1).
  { apply Rmult_le_compat; lra. }
  lra.
Qed.

Lemma angle_discontinuous : ~ continuity_pt CameraRig.angle 22.
Proof.
  intros Hc. destruct (Hc 3) as (alp & Halp & Hx); [lra|].
  set (x := 22 - Rmin (alp / 2) 0.1).
  pose proof (Rmin_l (alp / 2) 0.1). pose proof (Rmin_r (alp / 2) 0.1).
  assert (Hm : 0 < Rmin (alp / 2) 0.1) by (apply Rmin_pos; lra).
  specialize (Hx x). cbn in Hx. unfold R_dist, D_x, no_cond in Hx.
  assert (Hj : 3 < CameraRig.angle x - CameraRig.angle 22 < 5).
  { apply angle_jump. unfold x. lra. }
  assert (Hd : Rabs (CameraRig.angle x - CameraRig.angle 22) < 3).
  { apply Hx. split; [split; [exact I|unfold x; lra]|].
    unfold x. rewrite Rabs_left; lra. }
  rewrite Rabs_right in Hd; lra.
Qed.

(** C4, as the code has it: at every frame the camera is at the fixed
    horizontal radius 90 from the vertical axis through the scene centre; its
    height is not fixed but is [25 + 6 * sin (0.25 * t)], between 19 and 31;
    and within a cycle its angular position never decreases and grows at most
    linearly with the elapsed time, so that it is continuous there. *)
Theorem camera_orbit (s t : R) (n : Z) (camera : Vector3) :
  0 <= s -> IZR n * 22 <= s -> s <= t -> t < (IZR n + 1) * 22 ->
  let pos := CameraRig.frame true t camera in
  vx pos * vx pos + vz pos * vz pos = 90 * 90 /\
  vy pos = 25 + 6 * sin (0.25 * t) /\
  19 <= vy pos <= 31 /\
  0 <= CameraRig.angle t - CameraRig.angle s <= (0.12 + 6 / 55 * PI) * (t - s).
Proof.
  intros Hs Hlo Hst Hhi pos.
  split; [apply camera_radius|].
  destruct (camera_height t camera) as [Hy Hr].
  split; [exact Hy|]. split; [exact Hr|].
  apply (angle_within_cycle s t n); assumption.
Qed.

Lemma camera_orbit_witness :
  0 <= 1 /\ IZR 0 * 22 <= 1 /\ 1 <= 2 /\ 2 < (IZR 0 + 1) * 22 /\
  19 <= vy (CameraRig.frame true 2 CameraRig.camera0) <= 31 /\
  0 <= CameraRig.angle 2 - CameraRig.angle 1.
Proof.
  split; [lra|]. split; [lra|]. split; [lra|]. split; [lra|].
  destruct (camera_orbit 1 2 0 CameraRig.camera0) as (_ & _ & Hy & Ha & _);
    [lra|lra|lra|lra|].
  split; [exact Hy|exact Ha].
Defined.

(** C4 as stated fails: the height of the camera is 25 at [t = 0] and 31 at
    [t = 2 * PI], and the angle is not continuous at [t = 22], where the
    phase wraps. *)
Lemma camera_height_varies_angle_jumps :
  vy (CameraRig.frame true 0 CameraRig.camera0) = 25 /\
  vy (CameraRig.frame true (2 * PI) CameraRig.camera0) = 31 /\
  ~ continuity_pt CameraRig.angle 22.
Proof.
  split; [|split; [|exact angle_discontinuous]]; cbn; unfold CameraRig.y.
  - rewrite Rmult_0_l, sin_0. lra.
  - replace (2 * PI * 0.25) with (PI / 2) by lra. rewrite sin_PI2. lra.
Qed.

(** * Further properties of the code *)

(** ** Easing, remapping and the phase on all reals *)

(** X1: the easing curve is symmetric about its midpoint, whichever branch
    computes it. *)
Theorem easeInOut_symmetric (t : R) : easeInOut (1 - t) = 1 - easeInOut t.
Proof. case_ease; nra. Qed.

(** X2: on [0, 1] the easing curve is strictly increasing and its slope is at
    most 2, so that the two branches join at 0.5 without a jump. *)
Theorem easeInOut_increasing (s t : R) :
  0 <= s -> s < t -> t <= 1 ->
  easeInOut s < easeInOut t /\ easeInOut t - easeInOut s <= 2 * (t - s).
Proof.
  intros H0 Hst H1. split.
  - case_ease; nra.
  - apply easeInOut_lipschitz; lra.
Qed.

Lemma easeInOut_increasing_witness :
  0 <= 0.25 /\ 0.25 < 0.75 /\ 0.75 <= 1 /\ easeInOut 0.25 < easeInOut 0.75.
Proof.
  split; [lra|]. split; [lra|]. split; [lra|].
  apply (easeInOut_increasing 0.25 0.75); lra.
Defined.

Lemma remap_zero_iff (x a b : R) : a < b -> remap x a b = 0 <-> x <= a.
Proof.
  intros Hab. split.
  - intros H. destruct (Rle_dec x a) as [|Hn]; [assumption|exfalso].
    destruct (Rle_dec b x) as [Hb|Hb].
    + rewrite remap_above in H; lra.
    + rewrite remap_inside in H by lra.
      assert (0 < / (b - a)) by (apply Rinv_0_lt_compat; lra).
      unfold Rdiv in H. nra.
  - apply remap_below. exact Hab.
Qed.

Lemma remap_one_iff (x a b : R) : a < b -> remap x a b = 1 <-> b <= x.
Proof.
  intros Hab. split.
  - intros H. destruct (Rle_dec b x) as [|Hn]; [assumption|exfalso].
    destruct (Rle_dec x a) as [Ha|Ha].
    + rewrite remap_below in H; lra.
    + rewrite remap_inside in H by lra.
      apply (f_equal (fun v => v * (b - a))) in H.
      unfold Rdiv in H. rewrite Rmult_assoc, Rinv_l in H; lra.
  - apply remap_above. exact Hab.
Qed.

Lemma clamp01_mono (x y : R) : x <= y -> clamp01 x <= clamp01 y.
Proof. intros H. case_clamp; lra. Qed.

(** X3: for [inMin < inMax] the ramp [remap] never decreases in its first
    argument, is 0 exactly up to [inMin] and 1 exactly from [inMax] on. *)
Theorem remap_ramp (x y a b : R) :
  a < b -> x <= y ->
  remap x a b <= remap y a b /\
  (remap x a b = 0 <-> x <= a) /\
  (remap x a b = 1 <-> b <= x).
Proof.
  intros Hab Hxy. split; [|split].
  - unfold remap. apply clamp01_mono.
    assert (0 < / (b - a)) by (apply Rinv_0_lt_compat; lra).
    unfold Rdiv. nra.
  - apply remap_zero_iff. exact Hab.
  - apply remap_one_iff. exact Hab.
Qed.

Lemma remap_ramp_witness :
  0.4 < 0.7 /\ 0.5 <= 0.6 /\ remap 0.5 0.4 0.7 <= remap 0.6 0.4 0.7.
Proof.
  split; [lra|]. split; [lra|].
  apply (remap_ramp 0.5 0.6 0.4 0.7); lra.
Defined.

Lemma skinAppear_range (p : R) : 0 <= Buildings.skinAppear p <= 1.
Proof. unfold Buildings.skinAppear. apply easeInOut_range, remap_range. Qed.

Lemma frameRise_range (p : R) : 0 <= Buildings.frameRise p <= 1.
Proof. unfold Buildings.frameRise. apply easeInOut_range, clamp01_range. Qed.

Lemma foundationRise_range (p : R) : 0 <= Buildings.foundationRise p <= 1.
Proof. unfold Buildings.foundationRise. apply easeInOut_range, remap_range. Qed.

(** X4: the clamps applied on top of values that are already in [0, 1] never
    clip: [appear] of the blueprint is the plain ramp, the skin height is
    [height * skinAppear], and the opacities of the frame and skin materials
    are the unclamped products. *)
Theorem clamps_never_clip (lay : Buildings.Layout) (t h x z : R)
    (ms : Buildings.Meshes) :
  let p := phase t in
  BlueprintOverlay.appear p = remap p 0.2 0.4 /\
  Buildings.skinMatrix p h x z
    = compose (x, h * Buildings.skinAppear p / 2, z)
              (2.8, Rmax 0.01 (h * Buildings.skinAppear p), 2.8) /\
  opacity (Buildings.fMat (Buildings.frame true lay t ms))
    = Buildings.frameRise p * (1 - 0.6 * Buildings.skinAppear p) /\
  opacity (Buildings.sMat (Buildings.frame true lay t ms))
    = 0.15 + 0.85 * Buildings.skinAppear p.
Proof.
  intros p.
  pose proof (skinAppear_range p) as Hs. pose proof (frameRise_range p) as Hf.
  split; [|split; [|split]].
  - unfold BlueprintOverlay.appear. apply clamp01_id, remap_range.
  - unfold Buildings.skinMatrix. rewrite clamp01_id by exact Hs. reflexivity.
  - cbn. fold p. rewrite clamp01_id; nra.
  - cbn. fold p. rewrite clamp01_id; lra.
Qed.

Lemma Int_part_0 : Int_part 0 = 0%Z.
Proof. symmetry. apply Int_part_spec. lra. Qed.

Lemma Rtrunc_opp (x : R) : Rtrunc (- x) = (- Rtrunc x)%Z.
Proof.
  unfold Rtrunc.
  destruct (Rle_dec 0 (- x)) as [Hn|Hn], (Rle_dec 0 x) as [Hp|Hp].
  - replace x with 0 by lra. rewrite Ropp_0, Int_part_0. reflexivity.
  - rewrite Z.opp_involutive. reflexivity.
  - rewrite Ropp_involutive. reflexivity.
  - lra.
Qed.

Lemma phase_opp (t : R) : phase (- t) = - phase t.
Proof.
  unfold phase, js_rem, CYCLE_SECONDS.
  replace (- t / 22) with (- (t / 22)) by lra.
  rewrite Rtrunc_opp, opp_IZR. lra.
Qed.

(** X5: the phase of a negative elapsed time is negative: [%] keeps the sign of
    the dividend, so the phase is an odd function of the time and lies
    strictly between -1 and 1, on the side of its argument. *)
Theorem phase_odd (t : R) :
  phase (- t) = - phase t /\
  -1 < phase t < 1 /\
  (0 <= t -> 0 <= phase t) /\
  (t <= 0 -> phase t <= 0).
Proof.
  split; [apply phase_opp|].
  destruct (Rle_dec 0 t) as [Hpos|Hneg].
  - pose proof (phase_range t Hpos). repeat split; intros; try lra.
    replace t with 0 by lra. rewrite phase_first_cycle; lra.
  - assert (Ht : 0 <= - t) by lra. pose proof (phase_range (- t) Ht) as Hr.
    rewrite phase_opp in Hr. repeat split; intros; lra.
Qed.

(** ** What the frame callbacks write *)

Lemma remap_pos_iff (x a b : R) : a < b -> 0 < remap x a b <-> a < x.
Proof.
  intros Hab. pose proof (remap_range x a b) as Hr.
  pose proof (remap_zero_iff x a b Hab) as Hz. split; intros H.
  - destruct (Rle_dec x a) as [Hx|Hx]; [|lra].
    apply Hz in Hx. lra.
  - destruct (Req_dec (remap x a b) 0) as [H0|H0]; [|lra].
    apply Hz in H0. lra.
Qed.

(** X6: the blueprint callback always writes an opacity in [0, 1]; the grid is
    visible exactly when the phase is above 0.2; the material is made
    transparent and keeps its colour. *)
Theorem grid_opacity_range (t : R) (mat : Material) :
  let after := BlueprintOverlay.frame t mat in
  0 <= opacity after <= 1 /\
  (0 < opacity after <-> 0.2 < phase t) /\
  transparent after = true /\
  color after = color mat.
Proof.
  cbn. pose proof (pulse_range t) as Hp.
  assert (Ha : BlueprintOverlay.appear (phase t) = remap (phase t) 0.2 0.4).
  { unfold BlueprintOverlay.appear. apply clamp01_id, remap_range. }
  pose proof (remap_range (phase t) 0.2 0.4) as Hr.
  assert (Hpos : 0 < remap (phase t) 0.2 0.4 <-> 0.2 < phase t).
  { apply remap_pos_iff. lra. }
  rewrite Ha. split; [nra|]. split; [|split; reflexivity].
  rewrite <- Hpos. split; intros H; nra.
Qed.

(** X7: the opacity of the foundation material stays in [0, 0.9] and that of the
    frame material in [0, 1]; the foundations are visible exactly above
    phase 0.4 and the frames exactly above phase 97/220; the finished skins
    dim the foundations by at most a fifth and the frames by at most three
    fifths. *)
Theorem building_opacities (lay : Buildings.Layout) (t : R)
    (ms : Buildings.Meshes) :
  let after := Buildings.frame true lay t ms in
  let fd := opacity (Buildings.fdMat after) in
  let f := opacity (Buildings.fMat after) in
  0.72 * Buildings.foundationRise (phase t) <= fd
    <= 0.9 * Buildings.foundationRise (phase t) /\
  0.4 * Buildings.frameRise (phase t) <= f <= Buildings.frameRise (phase t) /\
  0 <= fd <= 0.9 /\ 0 <= f <= 1 /\
  (0 < fd <-> 0.4 < phase t) /\
  (0 < f <-> 97 / 220 < phase t) /\
  transparent (Buildings.fdMat after) = true /\
  transparent (Buildings.fMat after) = true /\
  transparent (Buildings.sMat after) = true.
Proof.
  cbn.
  pose proof (skinAppear_range (phase t)) as Hs.
  pose proof (frameRise_range (phase t)) as Hf.
  pose proof (foundationRise_range (phase t)) as Hd.
  pose proof (frameRise_pos_iff (phase t)) as Hfp.
  assert (Hdp : 0 < Buildings.foundationRise (phase t) <-> 0.4 < phase t).
  { apply eased_ramp_pos_iff. lra. }
  rewrite clamp01_id by nra.
  split; [nra|]. split; [nra|]. split; [nra|]. split; [nra|].
  split; [|split; [|repeat split]].
  - rewrite <- Hdp. split; intros H; nra.
  - rewrite <- Hfp. split; intros H; nra.
Qed.


Lemma sway_length (t : R) (children : list R) :
  forall i, length (SimpleCranes.sway t i children) = length children.
Proof.
  induction children as [|c rest IH]; intros i; cbn; [reflexivity|].
  rewrite IH. reflexivity.
Qed.

Lemma sway_bound (t : R) (children : list R) :
  forall i, Forall (fun r => -0.2 <= r <= 0.2) (SimpleCranes.sway t i children).
Proof.
  induction children as [|c rest IH]; intros i; cbn; constructor.
  - pose proof (SIN_bound (t * 0.3 + INR i)). lra.
  - apply IH.
Qed.

Lemma craneOpacity_range (p : R) : 0 <= SimpleCranes.craneOpacity p <= 0.8.
Proof.
  unfold SimpleCranes.craneOpacity.
  pose proof (remap_range p 0.4 0.7). pose proof (remap_range p 0.7 1.0). nra.
Qed.

Lemma craneOpacity_peak (p : R) : SimpleCranes.craneOpacity p = 0.8 <-> p = 0.7.
Proof.
  unfold SimpleCranes.craneOpacity.
  pose proof (remap_range p 0.4 0.7) as Ha.
  pose proof (remap_range p 0.7 1.0) as Hf.
  pose proof (remap_one_iff p 0.4 0.7) as H1.
  pose proof (remap_zero_iff p 0.7 1.0) as H0.
  split; intros H.
  - assert (Ha1 : remap p 0.4 0.7 = 1) by nra.
    assert (Hf0 : remap p 0.7 1.0 = 0) by nra.
    apply H1 in Ha1; [|lra]. apply H0 in Hf0; lra.
  - subst p. rewrite remap_above, remap_below; lra.
Qed.

(** X9: the crane callback writes an opacity in [0, 0.8] that reaches 0.8 at
    phase 0.7 only; every crane is turned by at most 0.2 radians either way,
    and no child of the group is added or dropped.  When the group is not
    mounted nothing is written. *)
Theorem cranes_sway (t : R) (c : SimpleCranes.Cranes) :
  let after := SimpleCranes.frame true t c in
  0 <= opacity (SimpleCranes.mat after) <= 0.8 /\
  (opacity (SimpleCranes.mat after) = 0.8 <-> phase t = 0.7) /\
  length (SimpleCranes.rotationY after) = length (SimpleCranes.rotationY c) /\
  Forall (fun r => -0.2 <= r <= 0.2) (SimpleCranes.rotationY after) /\
  SimpleCranes.frame false t c = c.
Proof.
  cbn. split; [apply craneOpacity_range|]. split; [apply craneOpacity_peak|].
  split; [apply sway_length|]. split; [apply sway_bound|reflexivity].
Qed.

(** X10: the building, road and crane-opacity callbacks depend on the elapsed
    time through the phase only: one cycle later they write the same
    values. *)
Theorem frames_periodic (t : R) (lay : Buildings.Layout)
    (ms : Buildings.Meshes) (rp : RoadsAndParks.Materials)
    (c : SimpleCranes.Cranes) :
  0 <= t ->
  Buildings.frame true lay (t + 22) ms = Buildings.frame true lay t ms /\
  RoadsAndParks.frame (t + 22) rp = RoadsAndParks.frame t rp /\
  opacity (SimpleCranes.mat (SimpleCranes.frame true (t + 22) c))
    = opacity (SimpleCranes.mat (SimpleCranes.frame true t c)).
Proof.
  intros Ht.
  unfold Buildings.frame, RoadsAndParks.frame, SimpleCranes.frame.
  cbn [negb SimpleCranes.mat opacity].
  rewrite (phase_shift t Ht). repeat split.
Qed.

Lemma frames_periodic_witness :
  0 <= 5 /\
  Buildings.frame true (Buildings.mkLayout 3 [(8, 8)] [10]) (5 + 22)
                  Buildings.meshes0
    = Buildings.frame true (Buildings.mkLayout 3 [(8, 8)] [10]) 5
                      Buildings.meshes0.
Proof.
  split; [lra|].
  apply (frames_periodic 5 (Buildings.mkLayout 3 [(8, 8)] [10])
           Buildings.meshes0
           (RoadsAndParks.mkMaterials (newMaterial 0) (newMaterial 0)
                                      (newMaterial 0) (newMaterial 0))
           SimpleCranes.cranes0).
  lra.
Defined.

(** ** The generated layout *)

Section Layouts.

Variable random : nat -> R.
Hypothesis random_range : forall k, 0 <= random k < 1.

Lemma draw_storeys (k : nat) :
  storeys (4 + IZR (Int_part (random k * 18))).
Proof.
  pose proof (random_range k) as Hr.
  pose proof (Int_part_bounds (random k * 18)) as [Hlo Hhi].
  exists (4 + Int_part (random k * 18))%Z. split.
  - assert (H0 : (-1 < Int_part (random k * 18))%Z) by (apply lt_IZR; lra).
    assert (H1 : (Int_part (random k * 18) < 18)%Z) by (apply lt_IZR; lra).
    lia.
  - rewrite plus_IZR. reflexivity.
Qed.

Lemma fold_cell_heights (cells : list (Z * Z)) :
  forall acc,
    Forall storeys (Buildings.heights acc) ->
    Forall storeys
      (Buildings.heights (fold_left (Buildings.cell random) cells acc)).
Proof.
  induction cells as [|[x z] cells IH]; intros acc Hacc; [exact Hacc|].
  cbn [fold_left]. apply IH. unfold Buildings.cell.
  destruct ((Z.rem x 16 =? 0) || (Z.rem z 16 =? 0))%Z; [exact Hacc|].
  cbn [Buildings.heights]. apply Forall_app. split; [exact Hacc|].
  constructor; [apply draw_storeys|constructor].
Qed.

Lemma fold_cell_calls (cells : list (Z * Z)) :
  forall acc,
    Buildings.calls (fold_left (Buildings.cell random) cells acc)
      = (Buildings.calls acc + 3 * length (filter buildable cells))%nat.
Proof.
  induction cells as [|[x z] cells IH]; intros acc.
  - cbn. lia.
  - cbn [fold_left filter]. rewrite IH.
    unfold buildable, Buildings.cell. cbn [fst snd].
    destruct ((Z.rem x 16 =? 0) || (Z.rem z 16 =? 0))%Z; cbn [negb].
    + reflexivity.
    + cbn [Buildings.calls length]. lia.
Qed.

Lemma fold_cell_jittered (cells : list (Z * Z)) :
  forall acc done,
    Forall2 jittered done (Buildings.footprints acc) ->
    Forall2 jittered (done ++ filter buildable cells)
      (Buildings.footprints (fold_left (Buildings.cell random) cells acc)).
Proof.
  induction cells as [|[x z] cells IH]; intros acc done Hacc.
  - cbn. rewrite app_nil_r. exact Hacc.
  - cbn [fold_left filter]. unfold buildable at 1. cbn [fst snd].
    unfold Buildings.cell at 2.
    destruct ((Z.rem x 16 =? 0) || (Z.rem z 16 =? 0))%Z; cbn [negb].
    + apply IH. exact Hacc.
    + replace (done ++ (x, z) :: filter buildable cells)
        with ((done ++ [(x, z)]) ++ filter buildable cells)
        by (rewrite <- app_assoc; reflexivity).
      apply IH. cbn [Buildings.footprints].
      apply Forall2_app; [exact Hacc|].
      constructor; [|constructor].
      pose proof (random_range (Buildings.calls acc)).
      pose proof (random_range (S (Buildings.calls acc))).
      unfold jittered. cbn [fst snd]. lra.
Qed.

End Layouts.

Lemma Forall2_nth_error_r {A B : Type} (P : A -> B -> Prop)
    (l : list A) (l' : list B) :
  Forall2 P l l' ->
  forall i b, nth_error l' i = Some b ->
              exists a, nth_error l i = Some a /\ P a b.
Proof.
  induction 1 as [|a b0 l l' Hab _ IH]; intros i b Hi.
  - destruct i; discriminate.
  - destruct i as [|i]; cbn in Hi.
    + injection Hi as <-. exists a. split; [reflexivity|exact Hab].
    + cbn. apply IH. exact Hi.
Qed.

(** Two different buildable cells are 16 units apart along one axis. *)
Lemma buildable_cells_far (i j : nat) (c d : Z * Z) :
  i <> j ->
  nth_error (filter buildable (list_prod Buildings.coords Buildings.coords)) i
    = Some c ->
  nth_error (filter buildable (list_prod Buildings.coords Buildings.coords)) j
    = Some d ->
  far c d = true.
Proof.
  set (L := filter buildable (list_prod Buildings.coords Buildings.coords)).
  intros Hij Hi Hj.
  assert (Hall :
    forallb (fun i => forallb (fun j =>
      (i =? j)%nat ||
      match nth_error L i, nth_error L j with
      | Some c, Some d => far c d
      | _, _ => true
      end) (seq 0 36)) (seq 0 36) = true) by (vm_compute; reflexivity).
  assert (Hli : (i < 36)%nat).
  { rewrite <- buildable_cells. apply nth_error_Some. fold L. congruence. }
  assert (Hlj : (j < 36)%nat).
  { rewrite <- buildable_cells. apply nth_error_Some. fold L. congruence. }
  rewrite forallb_forall in Hall.
  specialize (Hall i). rewrite in_seq in Hall.
  assert (Hi' : (0 <= i < 0 + 36)%nat) by lia. specialize (Hall Hi').
  rewrite forallb_forall in Hall.
  specialize (Hall j). rewrite in_seq in Hall.
  assert (Hj' : (0 <= j < 0 + 36)%nat) by lia. specialize (Hall Hj').
  rewrite Hi, Hj in Hall. apply orb_true_iff in Hall.
  destruct Hall as [Heq|Hfar]; [|exact Hfar].
  apply Nat.eqb_eq in Heq. contradiction.
Qed.

Lemma far_apart (c d : Z * Z) (p q : R * R) :
  far c d = true -> jittered c p -> jittered d q ->
  14.5 < Rabs (fst p - fst q) \/ 14.5 < Rabs (snd p - snd q).
Proof.
  unfold far, jittered. intros Hfar [Hpx Hpz] [Hqx Hqz].
  apply orb_true_iff in Hfar. destruct Hfar as [H|H]; apply Z.leb_le in H;
    apply IZR_le in H; rewrite abs_IZR, minus_IZR in H; [left|right];
    revert H; unfold Rabs; repeat destruct (Rcase_abs _); lra.
Qed.

(** X12: whatever [Math.random] returns, any two of the generated buildings stand
    more than 14.5 units apart along x or along z, so that their skins of 2.8
    by 2.8 never overlap each other at any phase. *)
Theorem buildings_apart (random : nat -> R) (i j : nat) (p q : R * R)
    (ph h h' : R) :
  (forall k, 0 <= random k < 1) ->
  i <> j ->
  nth_error (Buildings.footprints (Buildings.generate random)) i = Some p ->
  nth_error (Buildings.footprints (Buildings.generate random)) j = Some q ->
  (14.5 < Rabs (fst p - fst q) \/ 14.5 < Rabs (snd p - snd q)) /\
  ~ overlaps (Buildings.skinRect (Buildings.skinMatrix ph h (fst p) (snd p)))
             (Buildings.skinRect (Buildings.skinMatrix ph h' (fst q) (snd q))).
Proof.
  intros Hrandom Hij Hp Hq.
  assert (HF : Forall2 jittered
                 (filter buildable (list_prod Buildings.coords Buildings.coords))
                 (Buildings.footprints (Buildings.generate random))).
  { apply (fold_cell_jittered random Hrandom _ (Buildings.mkLayout 0 [] []) []).
    constructor. }
  destruct (Forall2_nth_error_r _ _ _ HF i p Hp) as (c & Hc & Hcp).
  destruct (Forall2_nth_error_r _ _ _ HF j q Hq) as (d & Hd & Hdq).
  pose proof (far_apart c d p q (buildable_cells_far i j c d Hij Hc Hd) Hcp Hdq)
    as Hgap.
  split; [exact Hgap|].
  intros [Hx Hz]. unfold meets in Hx, Hz. cbn in Hx, Hz.
  destruct Hgap; lra.
Qed.

Lemma generate_length (random : nat -> R) :
  length (Buildings.footprints (Buildings.generate random)) = 36%nat /\
  length (Buildings.heights (Buildings.generate random)) = 36%nat.
Proof.
  destruct (fold_cell_length random
              (list_prod Buildings.coords Buildings.coords)
              (Buildings.mkLayout 0 [] [])) as [Hlf Hlh].
  rewrite buildable_cells in Hlf, Hlh. split; [exact Hlf|exact Hlh].
Qed.

Lemma buildings_apart_witness :
  (forall k : nat, 0 <= (fun _ : nat => 0.5) k < 1) /\
  0%nat <> 1%nat /\
  (14.5 < Rabs (fst (nth 0 (Buildings.footprints
                              (Buildings.generate (fun _ => 0.5))) (0, 0))
                - fst (nth 1 (Buildings.footprints
                                (Buildings.generate (fun _ => 0.5))) (0, 0)))
   \/
   14.5 < Rabs (snd (nth 0 (Buildings.footprints
                              (Buildings.generate (fun _ => 0.5))) (0, 0))
                - snd (nth 1 (Buildings.footprints
                                (Buildings.generate (fun _ => 0.5))) (0, 0)))).
Proof.
  assert (Hr : forall k : nat, 0 <= (fun _ : nat => 0.5) k < 1)
    by (intros k; lra).
  split; [exact Hr|]. split; [discriminate|].
  destruct (generate_length (fun _ => 0.5)) as [Hlen _].
  refine (proj1 (buildings_apart (fun _ => 0.5) 0 1 _ _ 0 4 4 Hr _ _ _)).
  - discriminate.
  - apply nth_error_nth'. rewrite Hlen. lia.
  - apply nth_error_nth'. rewrite Hlen. lia.
Defined.

(** X11: whatever [Math.random] returns, the generator draws 108 random numbers
    for its 36 buildings, and every height it draws is an integer from 4 to
    21. *)
Theorem generated_heights (random : nat -> R) :
  (forall k, 0 <= random k < 1) ->
  Buildings.calls (Buildings.generate random) = 108%nat /\
  Forall storeys (Buildings.heights (Buildings.generate random)).
Proof.
  intros Hrandom. split.
  - unfold Buildings.generate. rewrite fold_cell_calls, buildable_cells.
    reflexivity.
  - apply fold_cell_heights; [exact Hrandom|constructor].
Qed.

Lemma generated_heights_witness :
  (forall k : nat, 0 <= (fun _ : nat => 0.5) k < 1) /\
  Forall storeys (Buildings.heights (Buildings.generate (fun _ => 0.5))).
Proof.
  split; [intros k; lra|].
  apply (generated_heights (fun _ => 0.5)). intros k; lra.
Defined.

(** ** The instance matrices *)

Lemma instances_length (mk : R -> R -> R -> Matrix4) (hs : list R)
    (fps : list (R * R)) :
  forall i, length (Buildings.instances mk hs i fps) = length fps.
Proof.
  induction fps as [|[x z] rest IH]; intros i; cbn; [reflexivity|].
  rewrite IH. reflexivity.
Qed.

Lemma instances_nth_error (mk : R -> R -> R -> Matrix4) (hs : list R)
    (fps : list (R * R)) :
  forall i k x z,
    nth_error fps k = Some (x, z) ->
    nth_error (Buildings.instances mk hs i fps) k
      = Some (mk (nth (i + k) hs 0) x z).
Proof.
  induction fps as [|[x0 z0] rest IH]; intros i k x z Hk.
  - destruct k; discriminate.
  - destruct k as [|k]; cbn in Hk |- *.
    + injection Hk as -> ->. rewrite Nat.add_0_r. reflexivity.
    + rewrite (IH (S i) k x z Hk). rewrite <- plus_n_Sm. reflexivity.
Qed.

(** X14: a frame writes one matrix per footprint into each of the three instanced
    meshes, and the [k]-th matrices belong to the [k]-th footprint and the
    [k]-th height: the running index pairs the two arrays correctly. *)
Theorem instances_pairing (lay : Buildings.Layout) (t : R)
    (ms : Buildings.Meshes) (k : nat) (x z : R) :
  nth_error (Buildings.footprints lay) k = Some (x, z) ->
  let after := Buildings.frame true lay t ms in
  length (Buildings.foundationInstances after)
    = length (Buildings.footprints lay) /\
  length (Buildings.frameInstances after)
    = length (Buildings.footprints lay) /\
  length (Buildings.skinInstances after)
    = length (Buildings.footprints lay) /\
  nth_error (Buildings.foundationInstances after) k
    = Some (Buildings.foundationMatrix (phase t) x z) /\
  nth_error (Buildings.frameInstances after) k
    = Some (Buildings.frameMatrix (phase t)
              (nth k (Buildings.heights lay) 0) x z) /\
  nth_error (Buildings.skinInstances after) k
    = Some (Buildings.skinMatrix (phase t)
              (nth k (Buildings.heights lay) 0) x z).
Proof.
  intros Hk after. unfold after, Buildings.frame.
  cbn [negb Buildings.foundationInstances Buildings.frameInstances
       Buildings.skinInstances].
  rewrite !instances_length.
  rewrite (instances_nth_error _ _ _ 0 k x z Hk).
  rewrite (instances_nth_error (Buildings.frameMatrix (phase t)) _ _ 0 k x z Hk).
  rewrite (instances_nth_error (Buildings.skinMatrix (phase t)) _ _ 0 k x z Hk).
  repeat split.
Qed.

Lemma instances_pairing_witness :
  nth_error (Buildings.footprints (Buildings.mkLayout 6 [(8, 8); (8, 24)] [10; 7]))
            1 = Some (8, 24) /\
  nth_error (Buildings.skinInstances
               (Buildings.frame true
                  (Buildings.mkLayout 6 [(8, 8); (8, 24)] [10; 7]) 20
                  Buildings.meshes0)) 1
    = Some (Buildings.skinMatrix (phase 20) 7 8 24).
Proof.
  split; [reflexivity|].
  apply (instances_pairing (Buildings.mkLayout 6 [(8, 8); (8, 24)] [10; 7])
           20 Buildings.meshes0 1 8 24).
  reflexivity.
Defined.

(** X15: for a height that is not negative, every box stands on the ground: the
    foundation reaches from 0 up to between 0.2 and 0.6; frame and skin
    boxes start at most 0.005 below the ground, only while they are thinner
    than 0.01, and never rise above the height of the building. *)
Theorem boxes_on_ground (p h x z : R) :
  0 <= h ->
  bottom (Buildings.foundationMatrix p x z) = 0 /\
  0.2 <= top (Buildings.foundationMatrix p x z) <= 0.6 /\
  -0.005 <= bottom (Buildings.frameMatrix p h x z) <= 0 /\
  top (Buildings.frameMatrix p h x z) <= Rmax 0.01 h /\
  -0.005 <= bottom (Buildings.skinMatrix p h x z) <= 0 /\
  top (Buildings.skinMatrix p h x z) <= Rmax 0.01 h /\
  (0.01 <= h * Buildings.skinAppear p ->
   bottom (Buildings.skinMatrix p h x z) = 0 /\
   top (Buildings.skinMatrix p h x z) = h * Buildings.skinAppear p).
Proof.
  intros Hh.
  pose proof (skinAppear_range p) as Hs.
  pose proof (frameRise_range p) as Hf.
  pose proof (foundationRise_range p) as Hd.
  unfold bottom, top, Buildings.foundationMatrix, Buildings.frameMatrix,
    Buildings.skinMatrix, vy. cbn [position scale fst snd].
  rewrite (clamp01_id _ Hs).
  assert (Hfh : 0 <= h * Buildings.frameRise p <= h) by nra.
  assert (Hsh : 0 <= h * Buildings.skinAppear p <= h) by nra.
  unfold Rmax.
  repeat match goal with
         | |- context [Rle_dec ?a ?b] => destruct (Rle_dec a b)
         end;
    repeat split; intros; lra.
Qed.

Lemma boxes_on_ground_witness :
  0 <= 10 /\
  -0.005 <= bottom (Buildings.skinMatrix 0.5 10 8 8) <= 0 /\
  top (Buildings.skinMatrix 0.5 10 8 8) <= Rmax 0.01 10.
Proof.
  split; [lra|].
  destruct (boxes_on_ground 0.5 10 8 8) as (_ & _ & _ & _ & Hb & Ht & _);
    [lra|].
  split; [exact Hb|exact Ht].
Defined.

(** ** Roads, sidewalks and trees *)

Lemma strips_within (l : list Z) :
  Forall2 within
    (flat_map (fun i => [mkRect 0 (IZR i) 200 1.2; mkRect (IZR i) 0 1.2 200]) l)
    (flat_map (fun i => [mkRect 0 (IZR i) 200 3.2; mkRect (IZR i) 0 3.2 200]) l).
Proof.
  induction l as [|i l IH]; cbn [flat_map app]; [constructor|].
  constructor; [|constructor; [|exact IH]];
    unfold within; cbn [centerX centerZ sizeX sizeZ];
    rewrite !Rminus_diag, Rabs_R0; lra.
Qed.

(** X16: there are as many sidewalks as roads, 14, and each sidewalk, 1.2 wide,
    lies within the road of the same line, 3.2 wide: the sidewalks run down
    the middle of the roads. *)
Theorem sidewalks_on_roads :
  length RoadsAndParks.roads = 14%nat /\
  length RoadsAndParks.sidewalks = 14%nat /\
  Forall2 within RoadsAndParks.sidewalks RoadsAndParks.roads.
Proof.
  split; [reflexivity|]. split; [reflexivity|].
  apply (strips_within RoadsAndParks.roadLines).
Qed.

Section Planting.

Variable random : nat -> R.
Hypothesis random_range : forall k, 0 <= random k < 1.

Lemma tree_in_park (x z : Z) (acc : RoadsAndParks.Park) (k : nat) :
  In x RoadsAndParks.parkCoords -> In z RoadsAndParks.parkCoords ->
  Forall in_park (RoadsAndParks.trees acc) ->
  Forall in_park (RoadsAndParks.trees (RoadsAndParks.tree random x z acc k)).
Proof.
  intros Hx Hz Hacc. unfold RoadsAndParks.tree. cbn [RoadsAndParks.trees].
  apply Forall_app. split; [exact Hacc|]. constructor; [|constructor].
  exists x, z. unfold vx, vy, vz. cbn [fst snd].
  pose proof (random_range (RoadsAndParks.draws acc)).
  pose proof (random_range (S (RoadsAndParks.draws acc))).
  repeat split; try assumption; lra.
Qed.

Lemma tree_count (x z : Z) (acc : RoadsAndParks.Park) (k : nat) :
  length (RoadsAndParks.trees (RoadsAndParks.tree random x z acc k))
    = S (length (RoadsAndParks.trees acc)) /\
  RoadsAndParks.draws (RoadsAndParks.tree random x z acc k)
    = S (S (RoadsAndParks.draws acc)).
Proof.
  unfold RoadsAndParks.tree. cbn [RoadsAndParks.trees RoadsAndParks.draws].
  rewrite length_app. cbn [length]. split; [lia|reflexivity].
Qed.

Lemma fold_tree_in_park (x z : Z) (ks : list nat) :
  In x RoadsAndParks.parkCoords -> In z RoadsAndParks.parkCoords ->
  forall acc,
    Forall in_park (RoadsAndParks.trees acc) ->
    Forall in_park
      (RoadsAndParks.trees (fold_left (RoadsAndParks.tree random x z) ks acc)).
Proof.
  intros Hx Hz. induction ks as [|k ks IH]; intros acc Hacc; [exact Hacc|].
  cbn [fold_left]. apply IH. apply tree_in_park; assumption.
Qed.

Lemma fold_tree_count (x z : Z) (ks : list nat) :
  forall acc,
    length (RoadsAndParks.trees
              (fold_left (RoadsAndParks.tree random x z) ks acc))
      = (length (RoadsAndParks.trees acc) + length ks)%nat /\
    RoadsAndParks.draws (fold_left (RoadsAndParks.tree random x z) ks acc)
      = (RoadsAndParks.draws acc + 2 * length ks)%nat.
Proof.
  induction ks as [|k ks IH]; intros acc; cbn [fold_left length].
  - split; lia.
  - destruct (IH (RoadsAndParks.tree random x z acc k)) as [Hl Hd].
    destruct (tree_count x z acc k) as [Hl1 Hd1].
    rewrite Hl, Hd, Hl1, Hd1. split; lia.
Qed.

Lemma fold_park_in_park (cells : list (Z * Z)) :
  forall acc,
    incl cells (list_prod RoadsAndParks.parkCoords RoadsAndParks.parkCoords) ->
    Forall in_park (RoadsAndParks.trees acc) ->
    Forall in_park
      (RoadsAndParks.trees (fold_left (RoadsAndParks.park random) cells acc)).
Proof.
  induction cells as [|[x z] cells IH]; intros acc Hincl Hacc; [exact Hacc|].
  cbn [fold_left]. apply IH.
  - intros c Hc. apply Hincl. right. exact Hc.
  - assert (Hin : In (x, z) (list_prod RoadsAndParks.parkCoords
                                       RoadsAndParks.parkCoords))
      by (apply Hincl; left; reflexivity).
    apply in_prod_iff in Hin. destruct Hin as [Hx Hz].
    unfold RoadsAndParks.park. cbn [fst snd].
    apply fold_tree_in_park; assumption.
Qed.

Lemma fold_park_count (cells : list (Z * Z)) :
  forall acc,
    length (RoadsAndParks.trees
              (fold_left (RoadsAndParks.park random) cells acc))
      = (length (RoadsAndParks.trees acc) + 5 * length cells)%nat /\
    RoadsAndParks.draws (fold_left (RoadsAndParks.park random) cells acc)
      = (RoadsAndParks.draws acc + 10 * length cells)%nat.
Proof.
  induction cells as [|[x z] cells IH]; intros acc; cbn [fold_left length].
  - split; lia.
  - destruct (IH (RoadsAndParks.park random acc (x, z))) as [Hl Hd].
    unfold RoadsAndParks.park in Hl, Hd |- *. cbn [fst snd] in Hl, Hd |- *.
    destruct (fold_tree_count x z (seq 0 5) acc) as [Hl1 Hd1].
    rewrite Hl, Hd, Hl1, Hd1. cbn [length seq]. split; lia.
Qed.

End Planting.

(** A park coordinate and a buildable coordinate are equal or at least 16
    units apart. *)
Lemma park_and_block_coords (b c : Z) :
  In b RoadsAndParks.parkCoords -> In c Buildings.coords ->
  Z.rem c 16 <> 0%Z ->
  b = c \/ (16 <= Z.abs (b - c))%Z.
Proof.
  intros Hb Hc Hrem.
  assert (Hall : forallb (fun b => forallb (fun c =>
                   (Z.rem c 16 =? 0) || (b =? c) || (16 <=? Z.abs (b - c)))%Z
                   Buildings.coords) RoadsAndParks.parkCoords = true)
    by (vm_compute; reflexivity).
  rewrite forallb_forall in Hall. specialize (Hall b Hb).
  rewrite forallb_forall in Hall. specialize (Hall c Hc).
  apply orb_true_iff in Hall. destruct Hall as [Hall|Hall].
  - apply orb_true_iff in Hall. destruct Hall as [H0|Heq].
    + apply Z.eqb_eq in H0. contradiction.
    + left. apply Z.eqb_eq. exact Heq.
  - right. apply Z.leb_le. exact Hall.
Qed.

Lemma park_clear_of_block (b c : Z) (tx px : R) :
  In b RoadsAndParks.parkCoords -> In c Buildings.coords ->
  Z.rem c 16 <> 0%Z ->
  IZR b + 2.5 <= tx < IZR b + 7.5 ->
  IZR c - 0.75 <= px < IZR c + 0.75 ->
  1.75 < Rabs (tx - px).
Proof.
  intros Hb Hc Hrem Ht Hp.
  destruct (park_and_block_coords b c Hb Hc Hrem) as [->|Hfar].
  - rewrite Rabs_right; lra.
  - apply IZR_le in Hfar. rewrite abs_IZR, minus_IZR in Hfar.
    revert Hfar. unfold Rabs. repeat destruct (Rcase_abs _); lra.
Qed.

Lemma park_cells :
  length (list_prod RoadsAndParks.parkCoords RoadsAndParks.parkCoords)
    = 36%nat.
Proof. vm_compute. reflexivity. Qed.

(** X17: whatever the two runs of [Math.random] return, 180 trees are planted
    with 360 draws, each on the ground within 2.5 units of the centre of its
    park, and every tree stands more than 1.75 units away from the centre of
    every building along x and along z as well: no trunk is inside the
    2.8-unit square of a building. *)
Theorem trees_clear_of_buildings (random random' : nat -> R) (v : Vector3)
    (p : R * R) :
  (forall k, 0 <= random k < 1) ->
  (forall k, 0 <= random' k < 1) ->
  In v (RoadsAndParks.trees (RoadsAndParks.plant random')) ->
  In p (Buildings.footprints (Buildings.generate random)) ->
  length (RoadsAndParks.trees (RoadsAndParks.plant random')) = 180%nat /\
  RoadsAndParks.draws (RoadsAndParks.plant random') = 360%nat /\
  in_park v /\
  1.75 < Rabs (vx v - fst p) /\
  1.75 < Rabs (vz v - snd p).
Proof.
  intros Hrandom Hrandom' Hv Hp.
  destruct (fold_park_count random'
              (list_prod RoadsAndParks.parkCoords RoadsAndParks.parkCoords)
              (RoadsAndParks.mkPark 0 [])) as [Hl Hd].
  rewrite park_cells in Hl, Hd.
  split; [exact Hl|]. split; [exact Hd|].
  assert (Hpark : Forall in_park
                    (RoadsAndParks.trees (RoadsAndParks.plant random'))).
  { unfold RoadsAndParks.plant.
    apply (fold_park_in_park random' Hrandom'
             (list_prod RoadsAndParks.parkCoords RoadsAndParks.parkCoords)
             (RoadsAndParks.mkPark 0 []));
      [apply incl_refl|constructor]. }
  assert (Hblock : Forall on_block
                     (Buildings.footprints (Buildings.generate random))).
  { apply fold_cell_on_block; [exact Hrandom|apply incl_refl|constructor]. }
  rewrite Forall_forall in Hpark, Hblock.
  pose proof (Hpark v Hv) as Hin. split; [exact Hin|].
  destruct Hin as (bx & bz & Hbx & Hbz & Htx & _ & Htz).
  destruct (Hblock p Hp) as (cx & cz & Hcx & Hcz & Hrx & Hrz & Hpx & Hpz).
  split.
  - apply (park_clear_of_block bx cx); assumption.
  - apply (park_clear_of_block bz cz); assumption.
Qed.

Lemma plant_length (random : nat -> R) :
  length (RoadsAndParks.trees (RoadsAndParks.plant random)) = 180%nat.
Proof.
  destruct (fold_park_count random
              (list_prod RoadsAndParks.parkCoords RoadsAndParks.parkCoords)
              (RoadsAndParks.mkPark 0 [])) as [Hl _].
  rewrite park_cells in Hl. exact Hl.
Qed.

Lemma trees_clear_of_buildings_witness :
  (forall k : nat, 0 <= (fun _ : nat => 0.5) k < 1) /\
  (forall k : nat, 0 <= (fun _ : nat => 0.9) k < 1) /\
  1.75 < Rabs (vx (nth 7 (RoadsAndParks.trees
                            (RoadsAndParks.plant (fun _ => 0.9))) (0, 0, 0))
               - fst (nth 3 (Buildings.footprints
                               (Buildings.generate (fun _ => 0.5))) (0, 0))).
Proof.
  assert (Hr : forall k : nat, 0 <= (fun _ : nat => 0.5) k < 1)
    by (intros k; lra).
  assert (Hr' : forall k : nat, 0 <= (fun _ : nat => 0.9) k < 1)
    by (intros k; lra).
  split; [exact Hr|]. split; [exact Hr'|].
  destruct (generate_length (fun _ => 0.5)) as [Hlen _].
  pose proof (plant_length (fun _ => 0.9)) as Hlen'.
  refine (proj1 (proj2 (proj2 (proj2
    (trees_clear_of_buildings (fun _ => 0.5) (fun _ => 0.9) _ _ Hr Hr' _ _))))).
  - apply nth_In. rewrite Hlen'. lia.
  - apply nth_In. rewrite Hlen. lia.
Defined.

Lemma fold_tree_keeps (random : nat -> R) (x z : Z) (v : Vector3)
    (ks : list nat) :
  forall acc,
    In v (RoadsAndParks.trees acc) ->
    In v (RoadsAndParks.trees
            (fold_left (RoadsAndParks.tree random x z) ks acc)).
Proof.
  induction ks as [|k ks IH]; intros acc Hacc; [exact Hacc|].
  cbn [fold_left]. apply IH. unfold RoadsAndParks.tree.
  cbn [RoadsAndParks.trees]. apply in_or_app. left. exact Hacc.
Qed.

Lemma fold_park_keeps (random : nat -> R) (v : Vector3)
    (cells : list (Z * Z)) :
  forall acc,
    In v (RoadsAndParks.trees acc) ->
    In v (RoadsAndParks.trees
            (fold_left (RoadsAndParks.park random) cells acc)).
Proof.
  induction cells as [|c cells IH]; intros acc Hacc; [exact Hacc|].
  cbn [fold_left]. apply IH. unfold RoadsAndParks.park.
  apply fold_tree_keeps. exact Hacc.
Qed.

Lemma fold_tree_keeps_step (random : nat -> R) (x z : Z) (v : Vector3)
    (acc : RoadsAndParks.Park) (k : nat) :
  In v (RoadsAndParks.trees acc) ->
  In v (RoadsAndParks.trees (RoadsAndParks.tree random x z acc k)).
Proof.
  intros Hacc. unfold RoadsAndParks.tree. cbn [RoadsAndParks.trees].
  apply in_or_app. left. exact Hacc.
Qed.

Lemma fold_left_step {A B : Type} (f : A -> B -> A) (b : B) (l : list B)
    (a : A) :
  fold_left f (b :: l) a = fold_left f l (f a b).
Proof. reflexivity. Qed.

(** The first tree of a park is planted with the next two draws. *)
Lemma park_first (random : nat -> R) (x z : Z) (acc : RoadsAndParks.Park) :
  In (IZR x + 5 + (random (RoadsAndParks.draws acc) - 0.5) * 5, 0.0,
      IZR z + 5 + (random (S (RoadsAndParks.draws acc)) - 0.5) * 5)
     (RoadsAndParks.trees (RoadsAndParks.park random acc (x, z))).
Proof.
  unfold RoadsAndParks.park. cbn [fst snd].
  change (seq 0 5) with (0%nat :: seq 1 4). rewrite fold_left_step.
  apply fold_tree_keeps. unfold RoadsAndParks.tree.
  cbn [RoadsAndParks.trees]. apply in_or_app. right. left. reflexivity.
Qed.

Lemma park_cells_first :
  list_prod RoadsAndParks.parkCoords RoadsAndParks.parkCoords
    = (-40, -40)%Z
      :: tl (list_prod RoadsAndParks.parkCoords RoadsAndParks.parkCoords).
Proof. vm_compute. reflexivity. Qed.

(** The first tree is planted with the draws 0 and 1, in the park at
    (-40, -40). *)
Lemma first_tree (random : nat -> R) :
  In (IZR (-40) + 5 + (random 0%nat - 0.5) * 5, 0.0,
      IZR (-40) + 5 + (random 1%nat - 0.5) * 5)
     (RoadsAndParks.trees (RoadsAndParks.plant random)).
Proof.
  unfold RoadsAndParks.plant. rewrite park_cells_first, fold_left_step.
  apply fold_park_keeps.
  exact (park_first random (-40) (-40) (RoadsAndParks.mkPark 0 [])).
Qed.

(** X18: the road lines are kept free of buildings, not of trees: when every
    draw is 0.9 the first tree is planted at (-33, -33), on the road along
    [x = -32]. *)
Theorem trees_may_stand_on_roads :
  exists (random : nat -> R) (v : Vector3) (r : Rect),
    (forall k, 0 <= random k < 1) /\
    In v (RoadsAndParks.trees (RoadsAndParks.plant random)) /\
    In r RoadsAndParks.roads /\
    vx v = -33 /\ vz v = -33 /\
    stands_on (vx v) (vz v) r.
Proof.
  exists (fun _ => 0.9),
         (IZR (-40) + 5 + (0.9 - 0.5) * 5, 0.0, IZR (-40) + 5 + (0.9 - 0.5) * 5),
         (mkRect (IZR (-32)) 0 3.2 200).
  split; [intros k; lra|]. split; [|split; [|split; [|split]]].
  - exact (first_tree (fun _ => 0.9)).
  - unfold RoadsAndParks.roads.
    replace RoadsAndParks.roadLines with [-48; -32; -16; 0; 16; 32; 48]%Z
      by reflexivity.
    cbn [flat_map app]. do 3 right. left. reflexivity.
  - unfold vx. cbn [fst]. lra.
  - unfold vz. cbn [snd]. lra.
  - unfold stands_on, vx, vz. cbn [fst snd centerX centerZ sizeX sizeZ].
    split; unfold Rabs; destruct (Rcase_abs _); lra.
Qed.

(** ** The layout in closed form *)

Lemma fold_cell_closed (random : nat -> R) (cells : list (Z * Z)) :
  forall acc,
    Buildings.calls acc = (3 * length (Buildings.footprints acc))%nat ->
    Buildings.footprints (fold_left (Buildings.cell random) cells acc)
      = Buildings.footprints acc
        ++ imap (placed random) (length (Buildings.footprints acc))
                (filter buildable cells)
    /\
    Buildings.heights (fold_left (Buildings.cell random) cells acc)
      = Buildings.heights acc
        ++ imap (raised random) (length (Buildings.footprints acc))
                (filter buildable cells).
Proof.
  induction cells as [|[x z] cells IH]; intros acc Hcalls.
  - cbn. rewrite !app_nil_r. split; reflexivity.
  - cbn [fold_left filter].
    destruct ((Z.rem x 16 =? 0) || (Z.rem z 16 =? 0))%Z eqn:Hroad.
    + assert (Hb : buildable (x, z) = false)
        by (unfold buildable; cbn [fst snd]; rewrite Hroad; reflexivity).
      assert (Hc : Buildings.cell random acc (x, z) = acc)
        by (unfold Buildings.cell; rewrite Hroad; reflexivity).
      rewrite Hb, Hc. apply IH. exact Hcalls.
    + set (n := length (Buildings.footprints acc)) in *.
      assert (Hb : buildable (x, z) = true)
        by (unfold buildable; cbn [fst snd]; rewrite Hroad; reflexivity).
      assert (Hc : Buildings.cell random acc (x, z)
                   = Buildings.mkLayout (3 * S n)
                       (Buildings.footprints acc ++ [placed random n (x, z)])
                       (Buildings.heights acc ++ [raised random n (x, z)])).
      { unfold Buildings.cell, placed, raised. rewrite Hroad, Hcalls.
        cbn [fst snd].
        replace (3 * n + 1)%nat with (S (3 * n)) by lia.
        replace (3 * n + 2)%nat with (S (S (3 * n))) by lia.
        replace (3 * S n)%nat with (S (S (S (3 * n)))) by lia.
        reflexivity. }
      rewrite Hb, Hc.
      set (acc' := Buildings.mkLayout _ _ _).
      assert (Hlen : length (Buildings.footprints acc') = S n).
      { unfold acc'. cbn [Buildings.footprints]. rewrite length_app.
        cbn [length]. fold n. lia. }
      destruct (IH acc') as [Hf Hh].
      { rewrite Hlen. reflexivity. }
      rewrite Hf, Hh, Hlen. unfold acc'.
      cbn [Buildings.footprints Buildings.heights imap].
      rewrite <- !app_assoc. split; reflexivity.
Qed.

(** X13: the generator in closed form, for any oracle: the [k]-th building stands
    on the [k]-th buildable cell, in the order of the loops, moved by the
    draws [3 k] and [3 k + 1], and has its height from the draw [3 k + 2]:
    every footprint has three draws of its own. *)
Theorem generate_closed_form (random : nat -> R) :
  Buildings.footprints (Buildings.generate random)
    = imap (placed random) 0
           (filter buildable (list_prod Buildings.coords Buildings.coords)) /\
  Buildings.heights (Buildings.generate random)
    = imap (raised random) 0
           (filter buildable (list_prod Buildings.coords Buildings.coords)).
Proof.
  apply (fold_cell_closed random
           (list_prod Buildings.coords Buildings.coords)
           (Buildings.mkLayout 0 [] [])).
  reflexivity.
Qed.

Lemma imap_nth_error {A B : Type} (f : nat -> A -> B) (l : list A) :
  forall k i a,
    nth_error l i = Some a -> nth_error (imap f k l) i = Some (f (k + i)%nat a).
Proof.
  induction l as [|a0 l IH]; intros k i a Hi.
  - destruct i; discriminate.
  - destruct i as [|i]; cbn in Hi |- *.
    + injection Hi as ->. rewrite Nat.add_0_r. reflexivity.
    + rewrite (IH (S k) i a Hi). rewrite <- plus_n_Sm. reflexivity.
Qed.

(** X19: footprints are kept off the roads but not off the cranes: with the
    draws 0 and 0.95 in turn, the building on the cell (-8, 24) is centred
    at (-8.75, 24.675) and its 2.8-unit square covers the mast of the crane
    at (-10, 26). *)
Theorem building_may_cover_crane :
  exists (random : nat -> R) (p c : R * R),
    (forall k, 0 <= random k < 1) /\
    In p (Buildings.footprints (Buildings.generate random)) /\
    In c SimpleCranes.positions /\
    forall ph h,
      stands_on (fst c) (snd c)
                (Buildings.skinRect (Buildings.skinMatrix ph h (fst p) (snd p))).
Proof.
  set (random := fun k : nat => if Nat.even k then 0 else 0.95).
  exists random, (placed random 16 (-8, 24)%Z), (-10, 26).
  split; [|split; [|split]].
  - intros k. unfold random. destruct (Nat.even k); lra.
  - destruct (fold_cell_closed random
                (list_prod Buildings.coords Buildings.coords)
                (Buildings.mkLayout 0 [] []) eq_refl) as [Hf _].
    unfold Buildings.generate. rewrite Hf. cbn [Buildings.footprints app length].
    apply (nth_error_In _ 16).
    apply (imap_nth_error (placed random) _ 0 16 (-8, 24)%Z).
    vm_compute. reflexivity.
  - cbn. right. right. left. reflexivity.
  - intros ph h. unfold stands_on, placed, random.
    cbn [fst snd Buildings.skinRect Buildings.skinMatrix position scale
         centerX centerZ sizeX sizeZ Nat.mul Nat.add Nat.even].
    split; unfold Rabs; destruct (Rcase_abs _); lra.
Qed.

(** ** The scene on the ground *)

Lemma coords_bounds (x : Z) : In x Buildings.coords -> -40 <= IZR x <= 40.
Proof.
  intros Hx.
  assert (Hall : forallb (fun x => (-40 <=? x) && (x <=? 40))%Z
                         Buildings.coords = true) by reflexivity.
  rewrite forallb_forall in Hall. specialize (Hall x Hx).
  apply andb_true_iff in Hall. destruct Hall as [Hlo Hhi].
  apply Z.leb_le in Hlo, Hhi. split; apply IZR_le; assumption.
Qed.

Lemma parkCoords_bounds (x : Z) :
  In x RoadsAndParks.parkCoords -> -40 <= IZR x <= 40.
Proof.
  intros Hx.
  assert (Hall : forallb (fun x => (-40 <=? x) && (x <=? 40))%Z
                         RoadsAndParks.parkCoords = true) by reflexivity.
  rewrite forallb_forall in Hall. specialize (Hall x Hx).
  apply andb_true_iff in Hall. destruct Hall as [Hlo Hhi].
  apply Z.leb_le in Hlo, Hhi. split; apply IZR_le; assumption.
Qed.

Lemma roadLines_bounds (i : Z) :
  In i RoadsAndParks.roadLines -> -48 <= IZR i <= 48.
Proof.
  intros Hi.
  assert (Hall : forallb (fun x => (-48 <=? x) && (x <=? 48))%Z
                         RoadsAndParks.roadLines = true) by reflexivity.
  rewrite forallb_forall in Hall. specialize (Hall i Hi).
  apply andb_true_iff in Hall. destruct Hall as [Hlo Hhi].
  apply Z.leb_le in Hlo, Hhi. split; apply IZR_le; assumption.
Qed.

Ltac split_abs :=
  unfold Rabs; repeat destruct (Rcase_abs _); try lra.

(** X20: whatever [Math.random] returns, the roads, the skins of the buildings,
    the trees and the cranes all lie on the ground plane of 200 by 200; the
    roads span it from edge to edge.  The blueprint grid does not: its 404
    vertices lie at height 0.01 within 200 units of the origin on each axis,
    and the first one, (-200, 0.01, -200), is off the plane. *)
Theorem scene_on_ground (random random' : nat -> R) :
  (forall k, 0 <= random k < 1) ->
  (forall k, 0 <= random' k < 1) ->
  (forall r, In r RoadsAndParks.roads ->
     within r Ground.plane /\ (sizeX r = 200 \/ sizeZ r = 200)) /\
  (forall p ph h,
     In p (Buildings.footprints (Buildings.generate random)) ->
     within (Buildings.skinRect (Buildings.skinMatrix ph h (fst p) (snd p)))
            Ground.plane) /\
  (forall v, In v (RoadsAndParks.trees (RoadsAndParks.plant random')) ->
     stands_on (vx v) (vz v) Ground.plane) /\
  (forall c, In c SimpleCranes.positions ->
     stands_on (fst c) (snd c) Ground.plane) /\
  length BlueprintOverlay.points = 404%nat /\
  Forall (fun v => vy v = 0.01 /\ -200 <= vx v <= 200 /\ -200 <= vz v <= 200)
         BlueprintOverlay.points /\
  (exists v, In v BlueprintOverlay.points /\
             ~ stands_on (vx v) (vz v) Ground.plane).
Proof.
  intros Hrandom Hrandom'.
  split; [|split; [|split; [|split; [|split; [|split]]]]].
  - intros r Hr. destruct (roads_in r Hr) as (i & Hi & [-> | ->]);
      pose proof (roadLines_bounds i Hi);
      unfold within, Ground.plane; cbn [centerX centerZ sizeX sizeZ];
      (split; [split; split_abs|auto]).
  - intros p ph h Hp.
    assert (Hblock : Forall on_block
                       (Buildings.footprints (Buildings.generate random))).
    { unfold Buildings.generate.
      apply (fold_cell_on_block random Hrandom
               (list_prod Buildings.coords Buildings.coords)
               (Buildings.mkLayout 0 [] [])); [apply incl_refl|constructor]. }
    rewrite Forall_forall in Hblock.
    destruct (Hblock p Hp) as (x & z & Hx & Hz & _ & _ & Hpx & Hpz).
    pose proof (coords_bounds x Hx). pose proof (coords_bounds z Hz).
    unfold within, Ground.plane.
    cbn [Buildings.skinRect Buildings.skinMatrix position scale
         centerX centerZ sizeX sizeZ].
    split; split_abs.
  - intros v Hv.
    assert (Hpark : Forall in_park
                      (RoadsAndParks.trees (RoadsAndParks.plant random'))).
    { unfold RoadsAndParks.plant.
      apply (fold_park_in_park random' Hrandom'
               (list_prod RoadsAndParks.parkCoords RoadsAndParks.parkCoords)
               (RoadsAndParks.mkPark 0 []));
        [apply incl_refl|constructor]. }
    rewrite Forall_forall in Hpark.
    destruct (Hpark v Hv) as (x & z & Hx & Hz & Hvx & _ & Hvz).
    pose proof (parkCoords_bounds x Hx). pose proof (parkCoords_bounds z Hz).
    unfold stands_on, Ground.plane. cbn [centerX centerZ sizeX sizeZ].
    split; split_abs.
  - intros c Hc. unfold stands_on, Ground.plane.
    cbn [centerX centerZ sizeX sizeZ].
    destruct Hc as [<-|[<-|[<-|[]]]]; cbn [fst snd]; split; split_abs.
  - reflexivity.
  - unfold BlueprintOverlay.points. apply Forall_flat_map.
    apply Forall_forall. intros i Hi.
    assert (Hall : forallb (fun x => (-200 <=? x) && (x <=? 200))%Z
                           BlueprintOverlay.gridLines = true)
      by (vm_compute; reflexivity).
    rewrite forallb_forall in Hall. specialize (Hall i Hi).
    apply andb_true_iff in Hall. destruct Hall as [Hlo Hhi].
    apply Z.leb_le in Hlo, Hhi. apply IZR_le in Hlo, Hhi.
    repeat apply Forall_cons; try apply Forall_nil;
      unfold vx, vy, vz; cbn [fst snd]; lra.
  - exists (-200, 0.01, IZR (-200)). split.
    + unfold BlueprintOverlay.points.
      change BlueprintOverlay.gridLines
        with ((-200)%Z :: tl BlueprintOverlay.gridLines).
      cbn [flat_map app]. left. reflexivity.
    + unfold stands_on, Ground.plane, vx, vz.
      cbn [fst snd centerX centerZ sizeX sizeZ].
      intros [H _]. revert H. split_abs.
Qed.

Lemma scene_on_ground_witness :
  (forall k : nat, 0 <= (fun _ : nat => 0.5) k < 1) /\
  (forall k : nat, 0 <= (fun _ : nat => 0.9) k < 1) /\
  length BlueprintOverlay.points = 404%nat.
Proof.
  assert (Hr : forall k : nat, 0 <= (fun _ : nat => 0.5) k < 1)
    by (intros k; lra).
  assert (Hr' : forall k : nat, 0 <= (fun _ : nat => 0.9) k < 1)
    by (intros k; lra).
  split; [exact Hr|]. split; [exact Hr'|].
  exact (proj1 (proj2 (proj2 (proj2 (proj2
    (scene_on_ground (fun _ => 0.5) (fun _ => 0.9) Hr Hr')))))).
Defined.
